(** * bocadillo: the binlog reader and the rows-event decoder

    A shallow embedding of [reader/reader.go] (the [Reader], [New],
    [ReadEvent], [RotateEvent.Decode]), of [binlog/event_rows.go]
    ([PeekTableIDAndFlags], [Decode], [decodeRows], [decodeValue],
    [readString], [isBitSet]) and of the connection's [Connect].
    The reader's [New] is [NewReader] here; [New] is the buffer's.

    Conventions of the embedding:
    - Go's unsigned integers are [Z] with the wrap-around written out;
      [int] is the 64-bit two's complement integer;
    - a [[]byte] and a Go [string] are [list byte];
    - a Go function that can panic returns an [outcome]; [Panic] is
      propagated by the bind of the monad, as Go unwinds the stack;
    - [map[uint64]TableDescription] is a [gmap Z TableDescription]. *)

From Stdlib Require Import ZArith Lia List Strings.Byte String.
From stdpp Require Import base option list gmap.

Local Open Scope Z_scope.

(** ** Outcomes of Go code *)

(** A Go call returns, panics, or (for the one unbounded loop of
    [RowsEvent.Decode]) is cut off when the fuel of the model is used up. *)
Inductive outcome (A : Type) : Type :=
| Ret (a : A)
| Panic
| OutOfFuel.
Arguments Ret {A} a.
Arguments Panic {A}.
Arguments OutOfFuel {A}.

#[global] Instance outcome_ret : MRet outcome := fun A a => Ret a.
#[global] Instance outcome_bind : MBind outcome := fun A B f m =>
  match m with
  | Ret a => f a
  | Panic => Panic
  | OutOfFuel => OutOfFuel
  end.

(** ** Machine integers *)

Definition wrap (bits : Z) (z : Z) : Z := z mod 2 ^ bits.

(** [int(x)] for a [uint64] [x]: reinterpretation as a signed 64-bit value. *)
Definition to_int (z : Z) : Z :=
  let w := wrap 64 z in if w <? 2 ^ 63 then w else w - 2 ^ 64.

(** ** Bytes and slices *)

Definition byte_val (b : byte) : Z := Z.of_N (Byte.to_N b).

(** Little-endian value of a byte sequence. *)
Fixpoint le_value (bs : list byte) : Z :=
  match bs with
  | [] => 0
  | b :: rest => byte_val b + 256 * le_value rest
  end.

(** [s[n:]]: panics unless [0 <= n <= len(s)]. *)
Definition slice_from (s : list byte) (n : Z) : outcome (list byte) :=
  if (0 <=? n) && (n <=? Z.of_nat (length s))
  then Ret (drop (Z.to_nat n) s) else Panic.

(** [s[:n]]: panics unless [0 <= n <= len(s)] (the capacity is not modelled;
    the slices of this program are never re-extended). *)
Definition slice_to (s : list byte) (n : Z) : outcome (list byte) :=
  if (0 <=? n) && (n <=? Z.of_nat (length s))
  then Ret (take (Z.to_nat n) s) else Panic.

(** [s[i]] *)
Definition index {A} (s : list A) (i : Z) : outcome A :=
  if i <? 0 then Panic else
  match s !! Z.to_nat i with
  | Some x => Ret x
  | None => Panic
  end.

(** ** Package mysql: integer decoders *)

(** Modelled from the spec: the [mysql] package is not among the sources.
    [DecodeUintN] reads an unsigned little-endian integer of N/8 bytes from
    the front of the slice (the spec's little-endian unsigned reads, section
    4.1); indexing a slice that is too short panics. *)
Definition DecodeUint (nbytes : nat) (data : list byte) : outcome Z :=
  if (nbytes <=? length data)%nat then Ret (le_value (take nbytes data))
  else Panic.

Definition DecodeUint16 := DecodeUint 2.
Definition DecodeUint32 := DecodeUint 4.
Definition DecodeUint48 := DecodeUint 6.

(** ** Package buffer *)

(** Modelled from the spec: the [buffer] package is not among the sources.
    Section 4.1 describes it: a view over a byte slice with an explicit
    position; little-endian unsigned reads; every read past the end of the
    data is a panic. *)
Record Buffer : Type := mkBuffer { data : list byte; pos : nat }.

(** Modelled from the spec: [buffer.New], a view at position 0. *)
Definition New (connBuff : list byte) : Buffer :=
  {| data := connBuff; pos := 0 |}.

(** Modelled from the spec: [Cur], the bytes from the cursor on (the
    remaining slice of section 4.1). *)
Definition Cur (b : Buffer) : list byte := drop (pos b) (data b).

(** Modelled from the spec: [More], the [remaining() > 0] of section 4.1. *)
Definition More (b : Buffer) : bool := (pos b <? length (data b))%nat.

(** Modelled from the spec: [read_bytes(n)] reads [n] bytes and moves the
    cursor; a negative [n] or a read past the end panics. *)
Definition Read (n : Z) (b : Buffer) : outcome (list byte * Buffer) :=
  if (0 <=? n) && (Z.of_nat (pos b) + n <=? Z.of_nat (length (data b)))
  then Ret (take (Z.to_nat n) (Cur b),
            {| data := data b; pos := pos b + Z.to_nat n |})
  else Panic.

(** Modelled from the spec: [skip(n)], which fails like a read of [n]
    bytes when the buffer is exhausted. *)
Definition Skip (n : Z) (b : Buffer) : outcome Buffer :=
  '(_, b') ← Read n b; mret b'.

(** Modelled from the spec: [read_u8/u16/u24/u32/u48/u64], little-endian
    unsigned reads of 1, 2, 3, 4, 6 and 8 bytes. *)
Definition ReadUint (nbytes : Z) (b : Buffer) : outcome (Z * Buffer) :=
  '(bs, b') ← Read nbytes b; mret (le_value bs, b').

Definition ReadUint8 := ReadUint 1.
Definition ReadUint16 := ReadUint 2.
Definition ReadUint24 := ReadUint 3.
Definition ReadUint32 := ReadUint 4.
Definition ReadUint48 := ReadUint 6.
Definition ReadUint64 := ReadUint 8.

(** Modelled from the spec: [read_uint_lenenc], MySQL's length-encoded
    integer: value, NULL marker, bytes consumed. The spec leaves the first
    byte 0xFF open; it is taken as a plain value, like the bytes below
    0xFB. *)
Definition ReadUintLenEnc (b : Buffer) : outcome ((Z * bool * Z) * Buffer) :=
  '(n, b1) ← ReadUint8 b;
  if n =? 0xFB then mret ((0, true, 1), b1)
  else if n =? 0xFC then '(v, b2) ← ReadUint16 b1; mret ((v, false, 3), b2)
  else if n =? 0xFD then '(v, b2) ← ReadUint24 b1; mret ((v, false, 4), b2)
  else if n =? 0xFE then '(v, b2) ← ReadUint64 b1; mret ((v, false, 9), b2)
  else mret ((n, false, 1), b1).

(** Modelled from the spec: [read_string_varlen(n)], [n] bytes. *)
Definition ReadStringVarLen (n : Z) (b : Buffer) : outcome (list byte * Buffer) :=
  Read n b.

(** Modelled from the spec: [read_string_varenc(prefix_bytes)], a string
    behind a little-endian length prefix of [n] bytes. *)
Definition ReadStringVarEnc (n : Z) (b : Buffer) : outcome (list byte * Buffer) :=
  '(len, b1) ← ReadUint n b; Read len b1.

(** Modelled from the spec: [read_string_eof], the remaining bytes. *)
Definition ReadStringEOF (b : Buffer) : list byte * Buffer :=
  (Cur b, {| data := data b; pos := Nat.max (pos b) (length (data b)) |}).

(** Modelled from the spec: [read_f32/f64], 4 or 8 little-endian bytes; the
    float is kept as its IEEE-754 bit pattern. *)
Definition ReadFloat (nbytes : Z) (b : Buffer) : outcome (Z * Buffer) :=
  ReadUint nbytes b.

(** ** Package mysql: column types *)

(** Modelled from the spec: the [mysql] package's column type codes are not
    among the sources. The spec gives String = 0xFE and JSON = 0xF5; the
    others are the field type codes of the MySQL protocol, which the
    constants name. *)
Definition ColumnTypeDecimal : Z := 0x00.
Definition ColumnTypeTiny : Z := 0x01.
Definition ColumnTypeShort : Z := 0x02.
Definition ColumnTypeLong : Z := 0x03.
Definition ColumnTypeFloat : Z := 0x04.
Definition ColumnTypeDouble : Z := 0x05.
Definition ColumnTypeNull : Z := 0x06.
Definition ColumnTypeTimestamp : Z := 0x07.
Definition ColumnTypeLonglong : Z := 0x08.
Definition ColumnTypeInt24 : Z := 0x09.
Definition ColumnTypeDate : Z := 0x0a.
Definition ColumnTypeTime : Z := 0x0b.
Definition ColumnTypeDatetime : Z := 0x0c.
Definition ColumnTypeYear : Z := 0x0d.
Definition ColumnTypeNewDate : Z := 0x0e.
Definition ColumnTypeVarchar : Z := 0x0f.
Definition ColumnTypeBit : Z := 0x10.
Definition ColumnTypeTimestamp2 : Z := 0x11.
Definition ColumnTypeDatetime2 : Z := 0x12.
Definition ColumnTypeTime2 : Z := 0x13.
Definition ColumnTypeJSON : Z := 0xf5.
Definition ColumnTypeNewDecimal : Z := 0xf6.
Definition ColumnTypeEnum : Z := 0xf7.
Definition ColumnTypeSet : Z := 0xf8.
Definition ColumnTypeTinyblob : Z := 0xf9.
Definition ColumnTypeMediumblob : Z := 0xfa.
Definition ColumnTypeLongblob : Z := 0xfb.
Definition ColumnTypeBlob : Z := 0xfc.
Definition ColumnTypeVarstring : Z := 0xfd.
Definition ColumnTypeString : Z := 0xfe.
Definition ColumnTypeGeometry : Z := 0xff.

(** The case labels of [decodeValue]'s switch that decode a value, in the
    order of the source. *)
Definition supportedTypes : list Z :=
  [ ColumnTypeNull; ColumnTypeTiny; ColumnTypeShort; ColumnTypeInt24;
    ColumnTypeLong; ColumnTypeLonglong; ColumnTypeFloat; ColumnTypeDouble;
    ColumnTypeNewDecimal; ColumnTypeYear; ColumnTypeDate; ColumnTypeTime;
    ColumnTypeTime2; ColumnTypeTimestamp; ColumnTypeTimestamp2;
    ColumnTypeDatetime; ColumnTypeDatetime2; ColumnTypeString;
    ColumnTypeVarchar; ColumnTypeVarstring; ColumnTypeBlob;
    ColumnTypeGeometry; ColumnTypeJSON; ColumnTypeTinyblob;
    ColumnTypeMediumblob; ColumnTypeLongblob; ColumnTypeBit; ColumnTypeSet;
    ColumnTypeEnum ].

(** ** Decoded values *)

(** The dynamic values ([interface{}]) a decoded row holds. *)
Inductive value : Type :=
| VNil
| VUint (bits : Z) (v : Z)            (* uint8, uint16, uint32, uint64 *)
| VFloat (bits : Z) (raw : Z)         (* float32, float64 by their bit pattern *)
| VString (s : list byte)             (* a Go string *)
| VBytes (s : list byte)              (* a []byte *)
| VOther (kind : string) (repr : list byte)
    (* what a decoder of the mysql package returns (dates, times, decimals,
       JSON, bit sets) *)
| VUnsupportedType (ct meta : Z) (cur : list byte).
    (* the error built by fmt.Errorf("unsupported type: ...", ct, ct.String(),
       meta, buf.Cur()) *)

(** The value decoders the sources call but do not contain: methods of the
    buffer ([ReadDecimal], [ReadVarLen64]) and functions of the mysql package.
    Each may panic. The ones that take the rest of the buffer return the
    number of bytes they used. *)
Record Codec : Type := {
  ReadDecimal : Z → Z → Buffer → outcome (value * Buffer);
  ReadVarLen64 : Z → Buffer → outcome (value * Buffer);
  DecodeYear : Z → outcome value;
  DecodeDate : Z → outcome value;
  DecodeTime : Z → outcome value;
  DecodeDatetime : Z → outcome value;
  DecodeTime2 : list byte → Z → outcome (value * Z);
  DecodeTimestamp : list byte → Z → outcome (value * Z);
  DecodeTimestamp2 : list byte → Z → outcome (value * Z);
  DecodeDatetime2 : list byte → Z → outcome (value * Z);
  DecodeJSON : list byte → outcome value;
  DecodeBit : list byte → Z → Z → outcome (value * Z);
}.

(** ** binlog: descriptions shared by the events *)

(** The event types the sources name; [EventTypeOther] stands for every
    other code of the [EventType] byte. *)
Inductive EventType : Type :=
| EventTypeFormatDescription
| EventTypeRotate
| EventTypeTableMap
| EventTypeWriteRowsV0 | EventTypeWriteRowsV1 | EventTypeWriteRowsV2
| EventTypeUpdateRowsV0 | EventTypeUpdateRowsV1 | EventTypeUpdateRowsV2
| EventTypeDeleteRowsV0 | EventTypeDeleteRowsV1 | EventTypeDeleteRowsV2
| EventTypeQuery
| EventTypeXID
| EventTypeGTID
| EventTypeOther (code : Z).

Inductive ChecksumAlgorithm : Type :=
| ChecksumAlgorithmNone
| ChecksumAlgorithmCRC32
| ChecksumAlgorithmUndefined.

(** Modelled from the spec: the declaration of [ServerDetails] is not among
    the sources; section 3 gives it a flavor and a checksum algorithm. *)
Record ServerDetails : Type := {
  Flavor : Z;
  ChecksumAlgorithm_ : ChecksumAlgorithm;
}.

(** Modelled from the spec: the declaration of [FormatDescription] is not
    among the sources; the fields are those of section 3. *)
Record FormatDescription : Type := {
  Version : Z;
  ServerVersion : list byte;
  CreateTimestamp : Z;
  EventHeaderLength : Z;
  EventTypeHeaderLengths : list byte;
  ServerDetails_ : ServerDetails;
}.

(** Modelled from the spec: the declaration of [EventHeader] is not among
    the sources; the fields are those of section 4.2. *)
Record EventHeader : Type := {
  Timestamp : Z;
  Type_ : EventType;
  ServerID : Z;
  EventLen : Z;
  NextOffset : Z;
  Flags_ : Z;
}.

(** Modelled from the spec: the declaration of [TableDescription] is not
    among the sources; the fields are those of section 3. *)
Record TableDescription : Type := {
  SchemaName : list byte;
  TableName : list byte;
  ColumnTypes : list byte;
  ColumnMeta : list Z;
  NullBitmask : list byte;
}.

Record Position : Type := { File : list byte; Offset : Z }.

(** ** binlog/event_rows.go *)

Record RowsEvent : Type := {
  RowsEventType : EventType;
  TableID : Z;
  Flags : Z;
  ExtraData : list byte;
  ColumnCount : Z;
  ColumnBitmap1 : list byte;
  ColumnBitmap2 : list byte;
  Rows : list (list value);
}.

Definition RowsFlagEndOfStatement : Z := 0x0001.

Definition RowsEventVersion (et : EventType) : Z :=
  match et with
  | EventTypeWriteRowsV0 | EventTypeUpdateRowsV0 | EventTypeDeleteRowsV0 => 0
  | EventTypeWriteRowsV1 | EventTypeUpdateRowsV1 | EventTypeDeleteRowsV1 => 1
  | EventTypeWriteRowsV2 | EventTypeUpdateRowsV2 | EventTypeDeleteRowsV2 => 2
  | _ => -1
  end.

Definition RowsEventHasExtraData (et : EventType) : bool :=
  RowsEventVersion et =? 2.

Definition RowsEventHasSecondBitmap (et : EventType) : bool :=
  match et with
  | EventTypeUpdateRowsV1 | EventTypeUpdateRowsV2 => true
  | _ => false
  end.

(** [bm[i>>3] & (1 << (uint(i)&7)) > 0] *)
Definition isBitSet (bm : list byte) (i : Z) : outcome bool :=
  b ← index bm (Z.shiftr i 3);
  mret (0 <? Z.land (byte_val b) (Z.shiftl 1 (Z.land i 7))).

Definition readString (buf : Buffer) (length : Z) : outcome (value * Buffer) :=
  if length <? 256
  then '(s, buf') ← ReadStringVarEnc 1 buf; mret (VString s, buf')
  else '(s, buf') ← ReadStringVarEnc 2 buf; mret (VString s, buf').

(** The first block of [decodeValue]: the column type and the length after
    the rewrite of a String column's meta ([length] starts as 0). *)
Definition stringMeta (ct meta : Z) : Z * Z :=
  if ct =? ColumnTypeString then
    if 0xFF <? meta then
      let typeByte := wrap 8 (Z.shiftr meta 8) in
      let lengthByte := wrap 8 (Z.land meta 0xFF) in
      if negb (Z.land typeByte 0x30 =? 0x30) then
        (Z.lor typeByte 0x30,
         Z.lor lengthByte
           (wrap 16 (Z.shiftl (Z.lxor (Z.land typeByte 0x30) 0x30) 4)))
      else (typeByte, lengthByte)
    else (ct, 0)
  else (ct, 0).

(** [v, n := dec(buf.Cur(), ...); buf.Skip(n); return v] *)
Definition decodeCur (dec : list byte → outcome (value * Z)) (buf : Buffer)
  : outcome (value * Buffer) :=
  '(v, n) ← dec (Cur buf); buf' ← Skip n buf; mret (v, buf').

Definition readUintValue (nbytes : Z) (buf : Buffer) : outcome (value * Buffer) :=
  '(v, buf') ← ReadUint nbytes buf; mret (VUint (8 * nbytes) v, buf').

(** The switch of [decodeValue], on the type and length after the rewrite. *)
Definition decodeTyped (C : Codec) (buf : Buffer) (ct length meta : Z)
  : outcome (value * Buffer) :=
  if ct =? ColumnTypeNull then mret (VNil, buf)
  else if ct =? ColumnTypeTiny then readUintValue 1 buf
  else if ct =? ColumnTypeShort then readUintValue 2 buf
  else if ct =? ColumnTypeInt24 then readUintValue 3 buf
  else if ct =? ColumnTypeLong then readUintValue 4 buf
  else if ct =? ColumnTypeLonglong then readUintValue 8 buf
  else if ct =? ColumnTypeFloat then
    '(v, buf') ← ReadFloat 4 buf; mret (VFloat 32 v, buf')
  else if ct =? ColumnTypeDouble then
    '(v, buf') ← ReadFloat 8 buf; mret (VFloat 64 v, buf')
  else if ct =? ColumnTypeNewDecimal then
    let precision := Z.shiftr meta 8 in
    let decimals := Z.land meta 0xFF in
    ReadDecimal C precision decimals buf
  else if ct =? ColumnTypeYear then
    '(y, buf') ← ReadUint8 buf; v ← DecodeYear C y; mret (v, buf')
  else if ct =? ColumnTypeDate then
    '(d, buf') ← ReadUint24 buf; v ← DecodeDate C d; mret (v, buf')
  else if ct =? ColumnTypeTime then
    '(t, buf') ← ReadUint24 buf; v ← DecodeTime C t; mret (v, buf')
  else if ct =? ColumnTypeTime2 then
    decodeCur (fun cur => DecodeTime2 C cur meta) buf
  else if ct =? ColumnTypeTimestamp then
    decodeCur (fun cur => DecodeTimestamp C cur meta) buf
  else if ct =? ColumnTypeTimestamp2 then
    decodeCur (fun cur => DecodeTimestamp2 C cur meta) buf
  else if ct =? ColumnTypeDatetime then
    '(d, buf') ← ReadUint64 buf; v ← DecodeDatetime C d; mret (v, buf')
  else if ct =? ColumnTypeDatetime2 then
    decodeCur (fun cur => DecodeDatetime2 C cur meta) buf
  else if ct =? ColumnTypeString then readString buf length
  else if (ct =? ColumnTypeVarchar) || (ct =? ColumnTypeVarstring) then
    readString buf meta
  else if (ct =? ColumnTypeBlob) || (ct =? ColumnTypeGeometry) then
    '(s, buf') ← ReadStringVarEnc meta buf; mret (VBytes s, buf')
  else if ct =? ColumnTypeJSON then
    '(jdata, buf') ← ReadStringVarEnc meta buf;
    rawj ← DecodeJSON C jdata; mret (rawj, buf')
  else if ct =? ColumnTypeTinyblob then
    '(s, buf') ← ReadStringVarEnc 1 buf; mret (VBytes s, buf')
  else if ct =? ColumnTypeMediumblob then
    '(s, buf') ← ReadStringVarEnc 3 buf; mret (VBytes s, buf')
  else if ct =? ColumnTypeLongblob then
    '(s, buf') ← ReadStringVarEnc 4 buf; mret (VBytes s, buf')
  else if ct =? ColumnTypeBit then
    let nbits := wrap 16 (wrap 16 (Z.shiftr meta 8 * 8) + Z.land meta 0xFF) in
    let length := Z.quot (nbits + 7) 8 in
    decodeCur (fun cur => DecodeBit C cur nbits length) buf
  else if ct =? ColumnTypeSet then
    let nbits := length * 8 in
    decodeCur (fun cur => DecodeBit C cur nbits length) buf
  else if ct =? ColumnTypeEnum then ReadVarLen64 C length buf
  else
    (* ColumnTypeDecimal, ColumnTypeNewDate and the default case *)
    mret (VUnsupportedType ct meta (Cur buf), buf).

Definition decodeValue (C : Codec) (buf : Buffer) (ct meta : Z)
  : outcome (value * Buffer) :=
  let '(ct', length) := stringMeta ct meta in
  decodeTyped C buf ct' length meta.

(** The types that reach the last branch of [decodeValue]'s switch: old
    decimal, new date, and every code without a case of its own. *)
Definition unsupportedType (ct : Z) : Prop :=
  ct = ColumnTypeDecimal ∨ ct = ColumnTypeNewDate ∨ ct ∉ supportedTypes.

#[global] Instance unsupportedType_dec ct : Decision (unsupportedType ct).
Proof. unfold unsupportedType. apply _. Defined.

(** The first loop of [decodeRows]: the number of columns present in [bm]. *)
Fixpoint countPresent (bm : list byte) (k : nat) (i count : Z) : outcome Z :=
  match k with
  | O => mret count
  | S k' =>
    set ← isBitSet bm i;
    countPresent bm k' (i + 1) (if set : bool then count + 1 else count)
  end.

(** [make([]interface{}, n)] for a [uint64] [n]: a length that does not fit
    an [int] panics. *)
Definition makeRow (n : Z) : outcome (list value) :=
  if n <? 2 ^ 63 then mret (replicate (Z.to_nat n) VNil) else Panic.

(** The second loop of [decodeRows], with [k] iterations left from column
    [i] on. *)
Fixpoint decodeColumns (C : Codec) (td : TableDescription)
    (bm nullBM : list byte) (k : nat) (i nullIdx : Z) (row : list value)
    (buf : Buffer) : outcome (list value * Buffer) :=
  match k with
  | O => mret (row, buf)
  | S k' =>
    set ← isBitSet bm i;
    if negb set then decodeColumns C td bm nullBM k' (i + 1) nullIdx row buf
    else
      nb ← index nullBM (Z.quot nullIdx 8);
      let isNull := Z.land (Z.shiftr (byte_val nb) (Z.rem nullIdx 8)) 1 in
      let nullIdx' := nullIdx + 1 in
      if 0 <? isNull
      then decodeColumns C td bm nullBM k' (i + 1) nullIdx'
             (<[Z.to_nat i := VNil]> row) buf
      else
        ct ← index (ColumnTypes td) i;
        meta ← index (ColumnMeta td) i;
        '(v, buf') ← decodeValue C buf (byte_val ct) meta;
        decodeColumns C td bm nullBM k' (i + 1) nullIdx'
          (<[Z.to_nat i := v]> row) buf'
  end.

(** [decodeRows] always returns a nil error; only a panic stops it. *)
Definition decodeRows (C : Codec) (columnCount : Z) (buf : Buffer)
    (td : TableDescription) (bm : list byte) : outcome (list value * Buffer) :=
  let n := Z.to_nat (to_int columnCount) in
  count ← countPresent bm n 0 0;
  let count := Z.quot (count + 7) 8 in
  '(nullBM, buf1) ← ReadStringVarLen count buf;
  row ← makeRow columnCount;
  decodeColumns C td bm nullBM n 0 0 row buf1.

(** Go errors. *)
Inductive error : Type :=
| ErrUnknownTableID                        (* reader.ErrUnknownTableID *)
| ErrRecovered                             (* errors.New(fmt.Sprint(errv)) *)
| ErrInvalidRowsEvent                      (* "invalid rows event" *)
| ErrAnnotate (msg : string) (cause : error) (* errors.Annotate(err, msg) *)
| ErrExternal (msg : string)               (* an error of a callee that is not
                                              among the sources *)
| ErrEOF.                                  (* io.EOF, the one value of
                                              package io *)

(** A Go result pair [(value, error)] of which one side is nil. *)
Inductive result (A : Type) : Type :=
| Ok (a : A)
| Err (e : error).
Arguments Ok {A} a.
Arguments Err {A} e.

(** Modelled from the spec: the declaration of [TableMapEvent] is not among
    the sources; [ReadEvent] uses its table id and its description. *)
Record TableMapEvent : Type := {
  tmeTableID : Z;
  tmeFlags : Z;
  tmeTableDescription : TableDescription;
}.

(** The functions of package binlog that the sources call but do not
    contain. The decoders return a Go error or the decoded event, and may
    panic. [ZeroFormat] is the zero value [FormatDescription{}] a new
    [Reader] starts with. *)
Record Binlog : Type := {
  ZeroFormat : FormatDescription;
  HeaderLen : FormatDescription → Z;
  TableIDSize : FormatDescription → EventType → Z;
  EventHeaderDecode : list byte → FormatDescription → outcome (result EventHeader);
  FormatDescriptionEventDecode : list byte → outcome (result FormatDescription);
  TableMapEventDecode : list byte → FormatDescription → outcome (result TableMapEvent);
}.

Definition PeekTableIDAndFlags (B : Binlog) (ty : EventType)
    (connBuff : list byte) (fd : FormatDescription) : outcome (Z * Z) :=
  if TableIDSize B fd ty =? 6 then
    id ← DecodeUint48 connBuff;
    rest ← slice_from connBuff 6;
    fl ← DecodeUint16 rest;
    mret (id, fl)
  else
    id ← DecodeUint32 connBuff;
    rest ← slice_from connBuff 4;
    fl ← DecodeUint16 rest;
    mret (id, fl).

(** The [for] loop of [Decode]: one row per round, two for the events with
    a second bitmap, until the buffer has no more bytes. The loop has no
    bound of its own, so the model takes fuel. *)
Fixpoint decodeLoop (C : Codec) (ty : EventType) (columnCount : Z)
    (td : TableDescription) (bm1 bm2 : list byte) (fuel : nat)
    (rows : list (list value)) (buf : Buffer)
  : outcome (list (list value)) :=
  match fuel with
  | O => OutOfFuel
  | S fuel' =>
    '(row, buf1) ← decodeRows C columnCount buf td bm1;
    let rows1 := rows ++ [row] in
    '(rows2, buf2) ←
      (if RowsEventHasSecondBitmap ty then
         '(row2, buf2) ← decodeRows C columnCount buf1 td bm2;
         mret (rows1 ++ [row2], buf2)
       else mret (rows1, buf1));
    if negb (More buf2) then mret rows2
    else decodeLoop C ty columnCount td bm1 bm2 fuel' rows2 buf2
  end.

(** The body of [Decode], below the deferred recover. *)
Definition decodeBody (B : Binlog) (C : Codec) (fuel : nat) (ty : EventType)
    (connBuff : list byte) (fd : FormatDescription) (td : TableDescription)
  : outcome RowsEvent :=
  let buf := New connBuff in
  let idSize := TableIDSize B fd ty in
  '(tableID, buf) ← (if idSize =? 6 then ReadUint48 buf else ReadUint32 buf);
  '(flags, buf) ← ReadUint16 buf;
  '(extra, buf) ←
    (if RowsEventHasExtraData ty then
       '(len, buf') ← ReadUint16 buf;
       let extraLen := wrap 16 (len - 2) in
       ReadStringVarLen extraLen buf'
     else mret ([], buf));
  '(cc, buf) ← ReadUintLenEnc buf;
  let columnCount := cc.1.1 in
  let bmLen := Z.quot (to_int (wrap 64 (columnCount + 7))) 8 in
  '(bm1, buf) ← ReadStringVarLen bmLen buf;
  '(bm2, buf) ←
    (if RowsEventHasSecondBitmap ty then ReadStringVarLen bmLen buf
     else mret ([], buf));
  rows ← decodeLoop C ty columnCount td bm1 bm2 fuel [] buf;
  mret {| RowsEventType := ty; TableID := tableID; Flags := flags;
          ExtraData := extra; ColumnCount := columnCount;
          ColumnBitmap1 := bm1; ColumnBitmap2 := bm2; Rows := rows |}.

(** [RowsEvent.Decode]: the deferred function turns a panic of the body
    into the returned error. The event as it is left after an error is not
    modelled. *)
Definition Decode (B : Binlog) (C : Codec) (fuel : nat) (ty : EventType)
    (connBuff : list byte) (fd : FormatDescription) (td : TableDescription)
  : outcome (result RowsEvent) :=
  match decodeBody B C fuel ty connBuff fd td with
  | Ret e => Ret (Ok e)
  | Panic => Ret (Err ErrRecovered)
  | OutOfFuel => OutOfFuel
  end.

(** ** reader/reader.go *)

Record Reader : Type := {
  state : Position;
  format : FormatDescription;
  tableMap : gmap Z TableDescription;
}.

Record Event : Type := {
  Format : FormatDescription;
  Header : EventHeader;
  Buffer_ : list byte;
  EventOffset : Z;
  Table : option TableDescription;
}.

Definition initTableMap (r : Reader) : Reader :=
  {| state := state r; format := format r; tableMap := ∅ |}.

Definition isRowsEvent (et : EventType) : bool :=
  match et with
  | EventTypeWriteRowsV0 | EventTypeWriteRowsV1 | EventTypeWriteRowsV2
  | EventTypeUpdateRowsV0 | EventTypeUpdateRowsV1 | EventTypeUpdateRowsV2
  | EventTypeDeleteRowsV0 | EventTypeDeleteRowsV1 | EventTypeDeleteRowsV2 => true
  | _ => false
  end.

Definition isFormatDescription (et : EventType) : bool :=
  match et with EventTypeFormatDescription => true | _ => false end.

Definition isCRC32 (csa : ChecksumAlgorithm) : bool :=
  match csa with ChecksumAlgorithmCRC32 => true | _ => false end.

(** [RotateEvent.Decode]: it always returns a nil error. *)
Definition RotateEventDecode (connBuff : list byte) (fd : FormatDescription)
  : outcome Position :=
  let buf := New connBuff in
  '(offset, buf) ← (if 1 <? Version fd then ReadUint64 buf else mret (4, buf));
  let '(file, _) := ReadStringEOF buf in
  mret {| File := file; Offset := offset |}.

(** The payload [evt.Buffer] of [ReadEvent]: the packet behind the header,
    without the CRC32 checksum at its end when there is one. *)
Definition eventBuffer (B : Binlog) (fd : FormatDescription) (ty : EventType)
    (connBuff : list byte) : outcome (list byte) :=
  buffer ← slice_from connBuff (HeaderLen B fd);
  let csa := ChecksumAlgorithm_ (ServerDetails_ fd) in
  if negb (isFormatDescription ty) && isCRC32 csa
  then slice_to buffer (Z.of_nat (length buffer) - 4)
  else mret buffer.

(** The header step of [ReadEvent]: a nonzero [NextOffset] becomes the
    offset of the reader's position. *)
Definition advance (r : Reader) (header : EventHeader) : Reader :=
  if 0 <? NextOffset header
  then {| state := {| File := File (state r); Offset := NextOffset header |};
          format := format r; tableMap := tableMap r |}
  else r.

(** [ReadEvent], as a function of the reader and of what
    [r.conn.ReadPacket(ctx)] returned. It gives the reader after the call and
    the returned pair. *)
Definition ReadEvent (B : Binlog) (r : Reader) (packet : result (list byte))
  : outcome (Reader * result Event) :=
  match packet with
  | Err err => mret (r, Err (ErrAnnotate "read next event" err))
  | Ok connBuff =>
    let format0 := format r in
    hd ← EventHeaderDecode B connBuff format0;
    match hd with
    | Err err => mret (r, Err (ErrAnnotate "decode event header" err))
    | Ok header =>
      let offset0 := Offset (state r) in
      let r := advance r header in
      buffer ← eventBuffer B (format r) (Type_ header) connBuff;
      let evt fd tbl :=
        {| Format := fd; Header := header; Buffer_ := buffer;
           EventOffset := offset0; Table := tbl |} in
      match Type_ header with
      | EventTypeFormatDescription =>
        d ← FormatDescriptionEventDecode B buffer;
        match d with
        | Err err =>
          mret (r, Err (ErrAnnotate "decode format description event" err))
        | Ok fde =>
          mret ({| state := state r; format := fde; tableMap := tableMap r |},
                Ok (evt fde None))
        end
      | EventTypeRotate =>
        nextFile ← RotateEventDecode buffer (format r);
        mret ({| state := nextFile; format := format r; tableMap := tableMap r |},
              Ok (evt (format r) None))
      | EventTypeTableMap =>
        d ← TableMapEventDecode B buffer (format r);
        match d with
        | Err err => mret (r, Err (ErrAnnotate "decode table map event" err))
        | Ok tme =>
          mret ({| state := state r; format := format r;
                   tableMap := <[tmeTableID tme := tmeTableDescription tme]>
                                 (tableMap r) |},
                Ok (evt (format r) None))
        end
      | EventTypeWriteRowsV0 | EventTypeWriteRowsV1 | EventTypeWriteRowsV2
      | EventTypeUpdateRowsV0 | EventTypeUpdateRowsV1 | EventTypeUpdateRowsV2
      | EventTypeDeleteRowsV0 | EventTypeDeleteRowsV1 | EventTypeDeleteRowsV2 =>
        '(tableID, flags) ← PeekTableIDAndFlags B (Type_ header) buffer (format r);
        match tableMap r !! tableID with
        | None => mret (r, Err ErrUnknownTableID)
        | Some td =>
          let r' :=
            if (0 <? Z.land RowsFlagEndOfStatement flags)
               && (100 <? Z.of_nat (size (tableMap r)))
            then initTableMap r else r in
          mret (r', Ok (evt (format r) (Some td)))
        end
      | EventTypeQuery | EventTypeXID | EventTypeGTID | EventTypeOther _ =>
        mret (r, Ok (evt (format r) None))
      end
    end
  end.

(** A caller that calls [ReadEvent] once per packet, whatever each call
    returns; a panic ends the run. *)
Fixpoint ReadEvents (B : Binlog) (r : Reader) (packets : list (result (list byte)))
  : outcome (Reader * list (result Event)) :=
  match packets with
  | [] => mret (r, [])
  | p :: rest =>
    '(r1, e) ← ReadEvent B r p;
    '(r2, es) ← ReadEvents B r1 rest;
    mret (r2, e :: es)
  end.

(** [Event.DecodeRows] *)
Definition DecodeRows (B : Binlog) (C : Codec) (fuel : nat) (e : Event)
  : outcome (result RowsEvent) :=
  if RowsEventVersion (Type_ (Header e)) <? 0 then mret (Err ErrInvalidRowsEvent)
  else
    match Table e with
    | None => Panic                     (* *e.Table on a nil pointer *)
    | Some td => Decode B C fuel (Type_ (Header e)) (Buffer_ e) (Format e) td
    end.

(** ** The connection: Connect, and New *)

Record Config : Type := {
  ConfServerID : Z;
  ConfFile : list byte;
  ConfOffset : Z;          (* uint32 *)
  ConfHostname : list byte;
}.

(** The connection, reduced to the configuration it keeps for the commands
    it sends. *)
Record Conn : Type := { conf : Config }.

(** What the operating system and the server answer while a reader is set
    up: the results of os.Hostname, of opening and extending the driver's
    connection, and of the three commands [New] issues. *)
Record Session : Type := {
  osHostname : result (list byte);
  openConn : option error;
  extendConn : option error;
  disableChecksum : option error;
  registerSlave : option error;
  startBinlogDump : option error;
}.

Definition Connect (env : Session) (dsn : list byte) (conf : Config)
  : result Conn :=
  let named :=
    if decide (ConfHostname conf = []) then
      match osHostname env with
      | Err err => Err err
      | Ok name =>
        Ok {| ConfServerID := ConfServerID conf; ConfFile := ConfFile conf;
              ConfOffset := ConfOffset conf; ConfHostname := name |}
      end
    else Ok conf in
  match named with
  | Err err => Err err
  | Ok conf =>
    let conf := {| ConfServerID := ConfServerID conf; ConfFile := ConfFile conf;
                   ConfOffset := ConfOffset conf;
                   ConfHostname := list_byte_of_string "localhost" |} in
    let conf :=
      if ConfOffset conf =? 0
      then {| ConfServerID := ConfServerID conf; ConfFile := ConfFile conf;
              ConfOffset := 4; ConfHostname := ConfHostname conf |}
      else conf in
    match openConn env with
    | Some err => Err err
    | None =>
      match extendConn env with
      | Some err => Err err
      | None => Ok {| conf := conf |}
      end
    end
  end.

(** [New]: the reader keeps its own copy of the configured position; Go
    passes [sc] to [Connect] by value. The connection, the reader's [conn]
    field, is returned beside the reader. *)
Definition NewReader (B : Binlog) (env : Session) (dsn : list byte) (sc : Config)
  : result (Reader * Conn) :=
  match Connect env dsn sc with
  | Err err => Err (ErrAnnotate "establish connection" err)
  | Ok conn =>
    let r := {| state := {| File := ConfFile sc; Offset := ConfOffset sc |};
                format := ZeroFormat B; tableMap := ∅ |} in
    match disableChecksum env with
    | Some err => Err (ErrAnnotate "disable binlog checksum" err)
    | None =>
      match registerSlave env with
      | Some err => Err (ErrAnnotate "register replica server" err)
      | None =>
        match startBinlogDump env with
        | Some err => Err (ErrAnnotate "start binlog dump" err)
        | None => Ok (r, conn)
        end
      end
    end
  end.

(** ** Decoders for concrete runs

    The general theorems below hold for every [Binlog] and every [Codec].
    To run the reader on concrete packets, this section gives one of each,
    following the layouts of the spec. *)

Definition byte_of_Z (z : Z) : byte :=
  default x00 (Byte.of_N (Z.to_N (z mod 256))).

(** [n] bytes, little-endian. *)
Fixpoint le_bytes (n : nat) (z : Z) : list byte :=
  match n with
  | O => []
  | S n' => byte_of_Z z :: le_bytes n' (z / 256)
  end.

(** Modelled from the spec: the event type codes are not among the sources;
    these are the codes of the MySQL binlog for the types the reader names. *)
Definition eventTypeOfCode (c : Z) : EventType :=
  if c =? 2 then EventTypeQuery
  else if c =? 4 then EventTypeRotate
  else if c =? 15 then EventTypeFormatDescription
  else if c =? 16 then EventTypeXID
  else if c =? 19 then EventTypeTableMap
  else if c =? 20 then EventTypeWriteRowsV0
  else if c =? 21 then EventTypeUpdateRowsV0
  else if c =? 22 then EventTypeDeleteRowsV0
  else if c =? 23 then EventTypeWriteRowsV1
  else if c =? 24 then EventTypeUpdateRowsV1
  else if c =? 25 then EventTypeDeleteRowsV1
  else if c =? 30 then EventTypeWriteRowsV2
  else if c =? 31 then EventTypeUpdateRowsV2
  else if c =? 32 then EventTypeDeleteRowsV2
  else if c =? 33 then EventTypeGTID
  else EventTypeOther c.

(** Modelled from the spec: the inverse of [eventTypeOfCode]. *)
Definition codeOfEventType (et : EventType) : Z :=
  match et with
  | EventTypeQuery => 2
  | EventTypeRotate => 4
  | EventTypeFormatDescription => 15
  | EventTypeXID => 16
  | EventTypeTableMap => 19
  | EventTypeWriteRowsV0 => 20
  | EventTypeUpdateRowsV0 => 21
  | EventTypeDeleteRowsV0 => 22
  | EventTypeWriteRowsV1 => 23
  | EventTypeUpdateRowsV1 => 24
  | EventTypeDeleteRowsV1 => 25
  | EventTypeWriteRowsV2 => 30
  | EventTypeUpdateRowsV2 => 31
  | EventTypeDeleteRowsV2 => 32
  | EventTypeGTID => 33
  | EventTypeOther c => c
  end.

(** Modelled from the spec: the zero value [FormatDescription{}] of the
    record of section 3; the checksum algorithm's zero value is taken to be
    None. *)
Definition zeroFormat : FormatDescription :=
  {| Version := 0; ServerVersion := []; CreateTimestamp := 0;
     EventHeaderLength := 0; EventTypeHeaderLengths := [];
     ServerDetails_ := {| Flavor := 0;
                          ChecksumAlgorithm_ := ChecksumAlgorithmNone |} |}.

(** Modelled from the spec: section 4.2, the header has 19 bytes unless the
    format description gives another length. *)
Definition specHeaderLen (fd : FormatDescription) : Z :=
  if 0 <? EventHeaderLength fd then EventHeaderLength fd else 19.

(** Modelled from the spec: sections 4.5 and 4.6, the table id has 6 bytes
    or 4 "per FD"; as in the MySQL binlog, it has 4 bytes when the format
    description gives the event type a post-header of 6 bytes. *)
Definition specTableIDSize (fd : FormatDescription) (et : EventType) : Z :=
  match EventTypeHeaderLengths fd !! Z.to_nat (codeOfEventType et - 1) with
  | Some b => if byte_val b =? 6 then 4 else 6
  | None => 6
  end.

(** Modelled from the spec: section 4.2,
    [timestamp u32 | type u8 | server_id u32 | event_len u32 |
     next_offset u32 | flags u16]. *)
Definition specEventHeaderDecode (connBuff : list byte) (fd : FormatDescription)
  : outcome (result EventHeader) :=
  let buf := New connBuff in
  '(ts, buf) ← ReadUint32 buf;
  '(ty, buf) ← ReadUint8 buf;
  '(sid, buf) ← ReadUint32 buf;
  '(len, buf) ← ReadUint32 buf;
  '(next, buf) ← ReadUint32 buf;
  '(fl, buf) ← ReadUint16 buf;
  mret (Ok {| Timestamp := ts; Type_ := eventTypeOfCode ty; ServerID := sid;
              EventLen := len; NextOffset := next; Flags_ := fl |}).

(** Modelled from the spec: section 4.3,
    [binlog_version u16 | server_version 50 bytes | create_timestamp u32 |
     header_len u8 | event_type_header_lens to the end]. The checksum byte
    of the tail is not interpreted. *)
Definition specFormatDescriptionEventDecode (payload : list byte)
  : outcome (result FormatDescription) :=
  let buf := New payload in
  '(v, buf) ← ReadUint16 buf;
  '(sv, buf) ← ReadStringVarLen 50 buf;
  '(ts, buf) ← ReadUint32 buf;
  '(hl, buf) ← ReadUint8 buf;
  let '(lens, _) := ReadStringEOF buf in
  mret (Ok {| Version := v; ServerVersion := sv; CreateTimestamp := ts;
              EventHeaderLength := hl; EventTypeHeaderLengths := lens;
              ServerDetails_ :=
                {| Flavor := 0;
                   ChecksumAlgorithm_ := ChecksumAlgorithmUndefined |} |}).

(** Modelled from the spec: section 4.5, the width in bytes of a column
    type's meta. *)
Definition metaWidth (ct : Z) : Z :=
  if existsb (Z.eqb ct)
       [ColumnTypeString; ColumnTypeVarchar; ColumnTypeVarstring;
        ColumnTypeNewDecimal; ColumnTypeBit] then 2
  else if existsb (Z.eqb ct)
       [ColumnTypeFloat; ColumnTypeDouble; ColumnTypeBlob; ColumnTypeGeometry;
        ColumnTypeJSON; ColumnTypeTime2; ColumnTypeDatetime2;
        ColumnTypeTimestamp2] then 1
  else 0.

(** Modelled from the spec: section 4.5, the packed meta bytes become one
    [u16] per column; a 2-byte meta is big-endian for String and
    little-endian for the other types. *)
Fixpoint unpackMeta (types : list byte) (buf : Buffer) : outcome (list Z) :=
  match types with
  | [] => mret []
  | t :: rest =>
    let ct := byte_val t in
    '(m, buf') ←
      (if metaWidth ct =? 2 then
         if ct =? ColumnTypeString then
           '(hi, b1) ← ReadUint8 buf; '(lo, b2) ← ReadUint8 b1;
           mret (hi * 256 + lo, b2)
         else ReadUint16 buf
       else if metaWidth ct =? 1 then ReadUint8 buf
       else mret (0, buf));
    ms ← unpackMeta rest buf';
    mret (m :: ms)
  end.

(** Modelled from the spec: section 4.5, the layout of a table-map event. *)
Definition specTableMapEventDecode (payload : list byte) (fd : FormatDescription)
  : outcome (result TableMapEvent) :=
  let buf := New payload in
  '(id, buf) ←
    (if specTableIDSize fd EventTypeTableMap =? 6
     then ReadUint48 buf else ReadUint32 buf);
  '(fl, buf) ← ReadUint16 buf;
  '(schema, buf) ← ReadStringVarEnc 1 buf;
  buf ← Skip 1 buf;
  '(table, buf) ← ReadStringVarEnc 1 buf;
  buf ← Skip 1 buf;
  '(cc, buf) ← ReadUintLenEnc buf;
  let columnCount := cc.1.1 in
  '(types, buf) ← ReadStringVarLen columnCount buf;
  '(mlen, buf) ← ReadUintLenEnc buf;
  '(packed, buf) ← ReadStringVarLen mlen.1.1 buf;
  metas ← unpackMeta types (New packed);
  '(nulls, buf) ← ReadStringVarLen ((columnCount + 7) / 8) buf;
  mret (Ok {| tmeTableID := id; tmeFlags := fl;
              tmeTableDescription :=
                {| SchemaName := schema; TableName := table;
                   ColumnTypes := types; ColumnMeta := metas;
                   NullBitmask := nulls |} |}).

(** Modelled from the spec: the functions of package binlog that are not
    among the sources, each as defined above. *)
Definition specBinlog : Binlog :=
  {| ZeroFormat := zeroFormat;
     HeaderLen := specHeaderLen;
     TableIDSize := specTableIDSize;
     EventHeaderDecode := specEventHeaderDecode;
     FormatDescriptionEventDecode := specFormatDescriptionEventDecode;
     TableMapEventDecode := specTableMapEventDecode |}.

(** Modelled from the spec: a decoder of the mysql package that takes [n]
    bytes of [cur], reports that it used them and keeps them undecoded. *)
Definition rawPrefix (kind : string) (n : Z) (cur : list byte)
  : outcome (value * Z) :=
  if (0 <=? n) && (n <=? Z.of_nat (length cur))
  then mret (VOther kind (take (Z.to_nat n) cur), n) else Panic.

(** Modelled from the spec: section 4.7, bytes of a packed decimal: 4 bytes
    per group of 9 digits and 0, 1, 1, 2, 2, 3, 3, 4, 4 bytes for the 0 to 8
    digits left, for the integer and for the fractional digits. *)
Definition decimalBytes (precision scale : Z) : Z :=
  let residual d := nth (Z.to_nat (d mod 9)) [0; 1; 1; 2; 2; 3; 3; 4; 4] 0 in
  let intg := precision - scale in
  intg / 9 * 4 + residual intg + scale / 9 * 4 + residual scale.

(** Modelled from the spec: section 4.7 gives the bytes each of these
    decoders takes (with the fractional bytes [(fsp + 1) / 2] of the
    temporal types); this codec takes them and keeps them undecoded. *)
Definition rawCodec : Codec :=
  {| ReadDecimal := fun precision scale buf =>
       '(bs, buf') ← Read (decimalBytes precision scale) buf;
       mret (VOther "decimal" bs, buf');
     ReadVarLen64 := fun length buf =>
       '(v, buf') ← ReadUint length buf; mret (VUint 64 v, buf');
     DecodeYear := fun y => mret (VOther "year" (le_bytes 1 y));
     DecodeDate := fun d => mret (VOther "date" (le_bytes 3 d));
     DecodeTime := fun t => mret (VOther "time" (le_bytes 3 t));
     DecodeDatetime := fun d => mret (VOther "datetime" (le_bytes 8 d));
     DecodeTime2 := fun cur fsp => rawPrefix "time2" (3 + (fsp + 1) / 2) cur;
     DecodeTimestamp := fun cur _ => rawPrefix "timestamp" 4 cur;
     DecodeTimestamp2 := fun cur fsp =>
       rawPrefix "timestamp2" (4 + (fsp + 1) / 2) cur;
     DecodeDatetime2 := fun cur fsp =>
       rawPrefix "datetime2" (5 + (fsp + 1) / 2) cur;
     DecodeJSON := fun jdata => mret (VOther "json" jdata);
     DecodeBit := fun cur _ length => rawPrefix "bit" length cur |}.

(** *** Packets *)

(** A packet: the 19-byte header of section 4.2 and the payload. *)
Definition packet (code nextOffset : Z) (payload : list byte) : list byte :=
  le_bytes 4 0 ++ le_bytes 1 code ++ le_bytes 4 1
  ++ le_bytes 4 (19 + Z.of_nat (length payload))
  ++ le_bytes 4 nextOffset ++ le_bytes 2 0 ++ payload.

(** A table-map payload for table [id] of schema "s", table "t", with the
    column types [types] whose packed meta bytes are [packed]. *)
Definition tableMapPayload (id : Z) (types packed : list byte) : list byte :=
  le_bytes 6 id ++ le_bytes 2 1
  ++ [x01; x73; x00] ++ [x01; x74; x00]
  ++ le_bytes 1 (Z.of_nat (length types)) ++ types
  ++ le_bytes 1 (Z.of_nat (length packed)) ++ packed
  ++ le_bytes ((length types + 7) / 8) 0.

(** The head of a rows-event payload: table id (6 bytes) and flags. *)
Definition rowsHead (id flags : Z) : list byte :=
  le_bytes 6 id ++ le_bytes 2 flags.

(** [n] table-map packets, for the tables [first .. first + n - 1], each
    with one Long column. *)
Definition tableMapPackets (first : Z) (n : nat) : list (result (list byte)) :=
  map (fun i => Ok (packet 19 0 (tableMapPayload i [x03] [])))
      (seqZ first (Z.of_nat n)).

(** The reader [New] returns when every step of the session succeeds. *)
Definition calmSession : Session :=
  {| osHostname := Ok [x68]; openConn := None; extendConn := None;
     disableChecksum := None; registerSlave := None; startBinlogDump := None |}.

Definition config (file : list byte) (offset : Z) : Config :=
  {| ConfServerID := 1; ConfFile := file; ConfOffset := offset;
     ConfHostname := [] |}.

(** A format-description payload: binlog version 4, a server version of 50
    bytes, header length 19, and a post-header length of 8 for each of 40
    event types. *)
Definition formatPayload : list byte :=
  le_bytes 2 4 ++ [x35; x2e; x37] ++ replicate 47 x00 ++ le_bytes 4 0
  ++ [x13] ++ replicate 40 x08.

(** The reader [New] returns for the file "b" at offset 4. *)
Definition reader0 : Reader :=
  match NewReader specBinlog calmSession [] (config [x62] 4) with
  | Ok (r, _) => r
  | Err _ => {| state := {| File := []; Offset := 0 |};
                format := zeroFormat; tableMap := ∅ |}
  end.

(** The reader after the stream [prefix]; a stream that panics leaves the
    reader as it was. *)
Definition readerAfter (r : Reader) (prefix : list (result (list byte))) : Reader :=
  match ReadEvents specBinlog r prefix with
  | Ret (r', _) => r'
  | _ => r
  end.

(** The reader after a format description and 101 table maps. *)
Definition reader101 : Reader :=
  readerAfter reader0 (Ok (packet 15 0 formatPayload) :: tableMapPackets 1 101).

(** The reader after the format description alone (binlog version 4). *)
Definition readerV4 : Reader :=
  readerAfter reader0 [Ok (packet 15 0 formatPayload)].

(** A rotate payload: the offset in 8 bytes, then the file name. *)
Definition rotatePayload (offset : Z) (file : string) : list byte :=
  le_bytes 8 offset ++ list_byte_of_string file.

(** A table with a Long, an old Decimal and a Varchar(45) column. *)
Definition sampleTable : TableDescription :=
  {| SchemaName := list_byte_of_string "test";
     TableName := list_byte_of_string "users";
     ColumnTypes := [byte_of_Z ColumnTypeLong; byte_of_Z ColumnTypeDecimal;
                     byte_of_Z ColumnTypeVarchar];
     ColumnMeta := [0; 0; 45];
     NullBitmask := [x00] |}.

(** A write-rows payload for table 5 with one row of three columns, none
    NULL: the Long 1, nothing for the Decimal, the string "alice". *)
Definition sampleRows : list byte :=
  rowsHead 5 1 ++ [x03] ++ [x07] ++ [x00] ++ le_bytes 4 1
  ++ [x05] ++ list_byte_of_string "alice".

(** A rows payload that declares no column and has two more bytes. *)
Definition noColumnRows : list byte :=
  [x05; x00; x00; x00; x00; x00; x01; x00; x00; x00; x01].

(** A reader whose server appends CRC32 checksums to the events. *)
Definition readerCRC : Reader :=
  {| state := {| File := [x62]; Offset := 4 |};
     format := {| Version := 4; ServerVersion := [x35; x2e; x37];
                  CreateTimestamp := 0; EventHeaderLength := 19;
                  EventTypeHeaderLengths := replicate 40 x08;
                  ServerDetails_ :=
                    {| Flavor := 0;
                       ChecksumAlgorithm_ := ChecksumAlgorithmCRC32 |} |};
     tableMap := ∅ |}.

(** ** The rest of the reader and of the connection *)

(** [Reader.State] *)
Definition State (r : Reader) : Position := state r.

#[global] Instance error_eq_dec : EqDecision error.
Proof. solve_decision. Defined.

#[global] Instance byte_eq_dec : EqDecision byte := Byte.byte_eq_dec.

(** [io.EOF], the variable of package io. [err == io.EOF] compares
    identity: no other error is equal to it, whatever its text, and neither
    is an annotation of it. *)
Definition ioEOF : error := ErrEOF.

(** [notEOF]: [nil] for [io.EOF] itself, and the error otherwise. *)
Definition notEOF (err : error) : option error :=
  match err with
  | ErrEOF => None
  | _ => Some err
  end.

(** A [driver.Value]: a [[]byte], or a value of another dynamic type (nil
    among them), for which the assertion [.([]byte)] panics. *)
Inductive driverValue : Type :=
| DBytes (b : list byte)
| DOther.

(** The rows a query returns, as far as [GetVar] looks at them: the column
    names, and what the first [rows.Next(res)] does, an error or the values
    it stores in [res]. *)
Record QueryRows : Type := {
  Columns : list (list byte);
  Next : result (list driverValue);
}.

(** The statements the connection sends: [SHOW VARIABLES LIKE name] and
    [SET name=val], with the arguments of the [fmt.Sprintf] that builds
    them. *)
Inductive statement : Type :=
| ShowVariablesLike (name : list byte)
| SetVariable (name val : list byte).

(** The server behind the connection: what [c.conn.Query] and [c.conn.Exec]
    return for a statement. *)
Record Server : Type := {
  query : statement → result QueryRows;
  exec : statement → option error;
}.

(** [res] after [rows.Next(res)]: [len(rows.Columns())] values. *)
Definition rowValues (rows : QueryRows) (vals : list driverValue)
  : list driverValue :=
  take (length (Columns rows)) (vals ++ replicate (length (Columns rows)) DOther).

(** [Conn.GetVar]: the Go pair (value, error). *)
Definition GetVar (S : Server) (name : list byte)
  : outcome (list byte * option error) :=
  match query S (ShowVariablesLike name) with
  | Err err => mret ([], notEOF err)
  | Ok rows =>
    match Next rows with
    | Err err => mret ([], notEOF err)
    | Ok vals =>
      v ← index (rowValues rows vals) 1;
      match v with
      | DBytes b => mret (b, None)
      | DOther => Panic
      end
    end
  end.

(** [Conn.SetVar] *)
Definition SetVar (S : Server) (name val : list byte) : option error :=
  exec S (SetVariable name val).

(** [Conn.DisableChecksum] *)
Definition DisableChecksum (S : Server) : outcome (option error) :=
  '(cs, err) ← GetVar S (list_byte_of_string "BINLOG_CHECKSUM");
  match err with
  | Some e => mret (Some e)
  | None =>
    if decide (cs = list_byte_of_string "NONE") then mret None
    else mret (SetVar S (list_byte_of_string "@master_binlog_checksum")
                 (list_byte_of_string "NONE"))
  end.

(** The writes a command makes into its buffer, in the order of the
    source. *)
Inductive write : Type :=
| WriteByte (b : Z)
| WriteUint32 (v : Z)
| SkipBytes (n : Z)
| WriteStringEOF (s : list byte).

Definition comBinlogDump : Z := 18.

(** [Conn.StartBinlogDump]: the size it asks [tools.NewCommandBuffer] for,
    and the writes that fill the buffer. *)
Definition StartBinlogDump (c : Conn) : Z * list write :=
  (1 + 4 + 2 + 4 + Z.of_nat (length (ConfFile (conf c))),
   [ WriteByte comBinlogDump;
     WriteUint32 (ConfOffset (conf c));
     SkipBytes 2;
     WriteUint32 (ConfServerID (conf c));
     WriteStringEOF (ConfFile (conf c)) ]).

(** The bytes a write takes. *)
Definition writeSize (w : write) : Z :=
  match w with
  | WriteByte _ => 1
  | WriteUint32 _ => 4
  | SkipBytes n => n
  | WriteStringEOF s => Z.of_nat (length s)
  end.

(** ** Bitmaps *)

(** The number of bits set among the bits [0 .. n-1] of the little-endian
    value of a bitmap. *)
Definition popcount (bm : list byte) (n : nat) : Z :=
  Z.of_nat (length (filter (λ i, Z.testbit (le_value bm) i = true)
                           (seqZ 0 (Z.of_nat n)))).

(** A server without the variable asked for: every query ends with
    [io.EOF], and every statement executes. *)
Definition silentServer : Server :=
  {| query := fun _ => Err ioEOF; exec := fun _ => None |}.

(** A server whose query fails with an error that reads EOF but is not
    [io.EOF]. *)
Definition eofTextServer : Server :=
  {| query := fun _ => Err (ErrExternal "EOF"); exec := fun _ => None |}.

(** The row of [sampleRows] with four bytes for the Decimal column on the
    wire, between the Long and the Varchar. *)
Definition decimalRows : list byte :=
  rowsHead 5 1 ++ [x03] ++ [x07] ++ [x00] ++ le_bytes 4 1
  ++ [x20; x20; x20; x20] ++ [x05] ++ list_byte_of_string "alice".

(** [sampleTable] with a Long in place of the old Decimal. *)
Definition longTable : TableDescription :=
  {| SchemaName := list_byte_of_string "test";
     TableName := list_byte_of_string "users";
     ColumnTypes := [byte_of_Z ColumnTypeLong; byte_of_Z ColumnTypeLong;
                     byte_of_Z ColumnTypeVarchar];
     ColumnMeta := [0; 0; 45];
     NullBitmask := [x00] |}.

(** The table-map event of [tableMapPayload 7 [x03] []]: table 7 with one
    Long column. *)
Definition longTableMapEvent : TableMapEvent :=
  {| tmeTableID := 7; tmeFlags := 1;
     tmeTableDescription :=
       {| SchemaName := [x73]; TableName := [x74]; ColumnTypes := [x03];
          ColumnMeta := [0]; NullBitmask := [x00] |} |}.

(** The bytes a fixed-width integer column takes in [decodeValue]: Tiny,
    Short, Int24, Long and Longlong. *)
Definition intWidth (ct : Z) : option nat :=
  if ct =? ColumnTypeTiny then Some 1%nat
  else if ct =? ColumnTypeShort then Some 2%nat
  else if ct =? ColumnTypeInt24 then Some 3%nat
  else if ct =? ColumnTypeLong then Some 4%nat
  else if ct =? ColumnTypeLonglong then Some 8%nat
  else None.

(** * Properties *)

(** ** The outcome monad *)

Lemma bind_Ret {A B} (m : outcome A) (f : A → outcome B) (b : B) :
  m ≫= f = Ret b → ∃ a, m = Ret a ∧ f a = Ret b.
Proof. destruct m as [a| |]; simpl; intros H; [eauto | discriminate..]. Qed.

Lemma bind_Panic_l {A B} (f : A → outcome B) : Panic ≫= f = Panic.
Proof. reflexivity. Qed.

(** Splits a hypothesis [m ≫= f = Ret b] into the two steps. *)
Ltac bind_inv H :=
  let a := fresh "a" in
  let Ha := fresh "Hstep" in
  apply bind_Ret in H as [a [Ha H]].

Lemma slice_from_Ret s n t :
  slice_from s n = Ret t →
  0 ≤ n ≤ Z.of_nat (length s) ∧ t = drop (Z.to_nat n) s.
Proof.
  unfold slice_from. destruct (0 <=? n) eqn:H0; [|discriminate].
  destruct (n <=? Z.of_nat (length s)) eqn:H1; [|discriminate].
  simpl. intros [= <-]. split; [lia | done].
Qed.

Lemma slice_to_Ret s n t :
  slice_to s n = Ret t →
  0 ≤ n ≤ Z.of_nat (length s) ∧ t = take (Z.to_nat n) s.
Proof.
  unfold slice_to. destruct (0 <=? n) eqn:H0; [|discriminate].
  destruct (n <=? Z.of_nat (length s)) eqn:H1; [|discriminate].
  simpl. intros [= <-]. split; [lia | done].
Qed.

(** ** ReadEvent *)

Lemma advance_format r h : format (advance r h) = format r.
Proof. unfold advance. by destruct (0 <? NextOffset h). Qed.

Lemma advance_tableMap r h : tableMap (advance r h) = tableMap r.
Proof. unfold advance. by destruct (0 <? NextOffset h). Qed.

Lemma advance_File r h : File (state (advance r h)) = File (state r).
Proof. unfold advance. by destruct (0 <? NextOffset h). Qed.

Lemma advance_Offset r h :
  Offset (state (advance r h)) =
  if 0 <? NextOffset h then NextOffset h else Offset (state r).
Proof. unfold advance. by destruct (0 <? NextOffset h). Qed.

(** What a call of [ReadEvent] that returns an event went through: the
    header was decoded, the payload cut out of the packet, and the event
    carries both, with the offset the reader had before the call. *)
Lemma ReadEvent_Ok_inv B r connBuff r' evt :
  ReadEvent B r (Ok connBuff) = Ret (r', Ok evt) →
  EventHeaderDecode B connBuff (format r) = Ret (Ok (Header evt))
  ∧ eventBuffer B (format r) (Type_ (Header evt)) connBuff = Ret (Buffer_ evt)
  ∧ EventOffset evt = Offset (state r).
Proof.
  unfold ReadEvent. intros H.
  bind_inv H. destruct a as [header|err]; [|discriminate].
  bind_inv H. rewrite advance_format in Hstep0.
  assert (∀ fd tbl rr,
    Ret (rr, Ok {| Format := fd; Header := header; Buffer_ := a;
                   EventOffset := Offset (state r); Table := tbl |})
      = Ret (r', Ok evt) →
    EventHeaderDecode B connBuff (format r) = Ret (Ok (Header evt))
    ∧ eventBuffer B (format r) (Type_ (Header evt)) connBuff = Ret (Buffer_ evt)
    ∧ EventOffset evt = Offset (state r)) as Hfin.
  { intros fd tbl rr [= _ <-]. simpl. done. }
  destruct (Type_ header) eqn:Hty; simpl in H;
    repeat first
      [ exact (Hfin _ _ _ H)
      | discriminate
      | bind_inv H
      | match type of H with
        | context [match ?x with _ => _ end] => destruct x eqn:?
        end ].
Qed.

(** The rows-event case of [ReadEvent], once the header, the payload and the
    peeked pair are known. *)
Lemma ReadEvent_rows B r connBuff header payload tableID flags :
  EventHeaderDecode B connBuff (format r) = Ret (Ok header) →
  isRowsEvent (Type_ header) = true →
  eventBuffer B (format r) (Type_ header) connBuff = Ret payload →
  PeekTableIDAndFlags B (Type_ header) payload (format r) = Ret (tableID, flags) →
  ReadEvent B r (Ok connBuff) =
  Ret (match tableMap r !! tableID with
       | None => (advance r header, Err ErrUnknownTableID)
       | Some td =>
         (if (0 <? Z.land RowsFlagEndOfStatement flags)
             && (100 <? Z.of_nat (size (tableMap r)))
          then initTableMap (advance r header) else advance r header,
          Ok {| Format := format r; Header := header; Buffer_ := payload;
                EventOffset := Offset (state r); Table := Some td |})
       end).
Proof.
  intros Hhd Hrows Hbuf Hpeek. unfold ReadEvent.
  rewrite Hhd. simpl. rewrite !advance_format, !advance_tableMap, Hbuf. simpl.
  destruct (Type_ header); try discriminate Hrows;
    rewrite Hpeek; simpl; by destruct (tableMap r !! tableID).
Qed.

(** C1: a rows-event (any of the nine variants) whose peeked table id is
    not a key of the reader's table map makes [ReadEvent] return
    [ErrUnknownTableID] and no event; the reader's offset has by then
    moved to the header's [NextOffset] when that is nonzero, and nothing
    else of the reader has changed. *)
Theorem ReadEvent_unknown_table_id B r connBuff header payload tableID flags :
  EventHeaderDecode B connBuff (format r) = Ret (Ok header) →
  isRowsEvent (Type_ header) = true →
  eventBuffer B (format r) (Type_ header) connBuff = Ret payload →
  PeekTableIDAndFlags B (Type_ header) payload (format r) = Ret (tableID, flags) →
  tableMap r !! tableID = None →
  ∃ r', ReadEvent B r (Ok connBuff) = Ret (r', Err ErrUnknownTableID)
    ∧ (0 < NextOffset header → Offset (state r') = NextOffset header)
    ∧ (NextOffset header = 0 → Offset (state r') = Offset (state r))
    ∧ File (state r') = File (state r)
    ∧ format r' = format r ∧ tableMap r' = tableMap r.
Proof.
  intros Hhd Hrows Hbuf Hpeek Hnone. exists (advance r header).
  rewrite (ReadEvent_rows _ _ _ _ _ _ _ Hhd Hrows Hbuf Hpeek), Hnone.
  rewrite advance_Offset, advance_File, advance_format, advance_tableMap.
  repeat split.
  - intros Hpos. apply Z.ltb_lt in Hpos. by rewrite Hpos.
  - intros ->. done.
Qed.

(** C7: a rows-event that is returned and also triggers the flush carries
    the description that was mapped to its table id before the call, while
    the reader's table map is empty after the call. *)
Theorem ReadEvent_flush_keeps_table B r connBuff header payload tableID flags td :
  EventHeaderDecode B connBuff (format r) = Ret (Ok header) →
  isRowsEvent (Type_ header) = true →
  eventBuffer B (format r) (Type_ header) connBuff = Ret payload →
  PeekTableIDAndFlags B (Type_ header) payload (format r) = Ret (tableID, flags) →
  tableMap r !! tableID = Some td →
  0 < Z.land RowsFlagEndOfStatement flags →
  (100 < size (tableMap r))%nat →
  ∃ r' evt, ReadEvent B r (Ok connBuff) = Ret (r', Ok evt)
    ∧ Header evt = header
    ∧ Table evt = Some td
    ∧ Table evt = tableMap r !! tableID
    ∧ tableMap r' = ∅
    ∧ size (tableMap r') = 0%nat.
Proof.
  intros Hhd Hrows Hbuf Hpeek Hsome Hflag Hsize.
  rewrite (ReadEvent_rows _ _ _ _ _ _ _ Hhd Hrows Hbuf Hpeek), Hsome.
  apply Z.ltb_lt in Hflag. rewrite Hflag.
  assert ((100 <? Z.of_nat (size (tableMap r))) = true) as -> by (apply Z.ltb_lt; lia).
  simpl. eexists _, _. split; [reflexivity|]. simpl. repeat split; done.
Qed.

(** What a call of [ReadEvent] that returns a rows-event went through. *)
Lemma ReadEvent_rows_inv B r connBuff r' evt :
  ReadEvent B r (Ok connBuff) = Ret (r', Ok evt) →
  isRowsEvent (Type_ (Header evt)) = true →
  ∃ tableID flags td,
    PeekTableIDAndFlags B (Type_ (Header evt)) (Buffer_ evt) (format r)
      = Ret (tableID, flags)
    ∧ tableMap r !! tableID = Some td
    ∧ Table evt = Some td
    ∧ r' = (if (0 <? Z.land RowsFlagEndOfStatement flags)
               && (100 <? Z.of_nat (size (tableMap r)))
            then initTableMap (advance r (Header evt))
            else advance r (Header evt)).
Proof.
  intros H Hrows. pose proof (ReadEvent_Ok_inv _ _ _ _ _ H) as (Hhd & Hbuf & _).
  destruct (PeekTableIDAndFlags B (Type_ (Header evt)) (Buffer_ evt) (format r))
    as [[tableID flags]| |] eqn:Hpeek.
  - rewrite (ReadEvent_rows _ _ _ _ _ _ _ Hhd Hrows Hbuf Hpeek) in H.
    destruct (tableMap r !! tableID) as [td|] eqn:Hlk; [|discriminate].
    injection H as <- <-. exists tableID, flags, td. done.
  - exfalso. revert H. unfold ReadEvent. rewrite Hhd. simpl.
    rewrite !advance_format, Hbuf. simpl.
    destruct (Type_ (Header evt)); try discriminate Hrows;
      rewrite Hpeek; discriminate.
  - exfalso. revert H. unfold ReadEvent. rewrite Hhd. simpl.
    rewrite !advance_format, Hbuf. simpl.
    destruct (Type_ (Header evt)); try discriminate Hrows;
      rewrite Hpeek; discriminate.
Qed.

(** Case analysis of a call of [ReadEvent] that returned: every case of the
    switch, with the reader and the result it gives. *)
Ltac read_event_cases H :=
  unfold ReadEvent in H;
  repeat first
    [ discriminate
    | match type of H with
      | Ret _ = Ret _ => injection H as <- <-
      | mret _ = Ret _ => injection H as <- <-
      | _ ≫= _ = Ret _ => bind_inv H
      | context [match ?x with _ => _ end] => destruct x eqn:?
      end
    | progress cbn beta zeta in H ].

(** Brings the reader of a goal back to the reader before the call. *)
Ltac reader_simpl :=
  cbn;
  repeat match goal with
         | |- context [if ?c then initTableMap _ else _] => destruct c
         end;
  cbn; rewrite ?advance_format, ?advance_tableMap, ?advance_File.

Lemma ReadEvent_table_map_inv B r connBuff r' evt tme :
  ReadEvent B r (Ok connBuff) = Ret (r', Ok evt) →
  Type_ (Header evt) = EventTypeTableMap →
  TableMapEventDecode B (Buffer_ evt) (format r) = Ret (Ok tme) →
  tableMap r' = <[tmeTableID tme := tmeTableDescription tme]> (tableMap r)
  ∧ format r' = format r.
Proof.
  intros H Hty Hdec. pose proof (ReadEvent_Ok_inv _ _ _ _ _ H) as (Hhd & Hbuf & _).
  revert H. unfold ReadEvent. rewrite Hhd. cbn.
  rewrite !advance_format, !advance_tableMap, Hbuf. cbn.
  rewrite Hty, Hdec. cbn. intros [= <- _]. done.
Qed.

(** Only a rows-event that is returned can take a table id out of the
    table map. *)
Lemma ReadEvent_keeps_id B r packet r' res id :
  ReadEvent B r packet = Ret (r', res) →
  (∀ evt, res = Ok evt → isRowsEvent (Type_ (Header evt)) = false) →
  is_Some (tableMap r !! id) → is_Some (tableMap r' !! id).
Proof.
  intros H Hnr Hid. destruct packet as [connBuff|err0];
    [|cbn in H; by injection H as <- <-].
  read_event_cases H; cbn; rewrite ?advance_tableMap; try done;
    try (apply lookup_insert_is_Some'; by right);
    exfalso; specialize (Hnr _ eq_refl); cbn in Hnr;
    match goal with
    | Hty : Type_ _ = _ |- _ => rewrite Hty in Hnr
    end; discriminate.
Qed.

(** C2, as the code has it: a call of [ReadEvent] takes a table id out of
    the table map only when it returns a rows-event whose table id is mapped
    and whose flags carry EndOfStatement while the map holds more than 100
    entries, and the map is then empty. A returned rows-event leaves the map
    empty in that case and as it was in every other, so after a rows-event
    with EndOfStatement the map holds at most 100 entries. A TableMap event
    inserts its description whatever the size of the map. *)
Theorem ReadEvent_end_of_statement_bound B r packet r' res :
  ReadEvent B r packet = Ret (r', res) →
  (∀ id, is_Some (tableMap r !! id) → tableMap r' !! id = None →
     ∃ connBuff evt tableID flags,
       packet = Ok connBuff ∧ res = Ok evt
       ∧ isRowsEvent (Type_ (Header evt)) = true
       ∧ PeekTableIDAndFlags B (Type_ (Header evt)) (Buffer_ evt) (format r)
         = Ret (tableID, flags)
       ∧ is_Some (tableMap r !! tableID)
       ∧ 0 < Z.land RowsFlagEndOfStatement flags
       ∧ (100 < size (tableMap r))%nat
       ∧ tableMap r' = ∅)
  ∧ (∀ evt tableID flags,
       res = Ok evt →
       isRowsEvent (Type_ (Header evt)) = true →
       PeekTableIDAndFlags B (Type_ (Header evt)) (Buffer_ evt) (format r)
         = Ret (tableID, flags) →
       tableMap r' =
         (if (0 <? Z.land RowsFlagEndOfStatement flags)
             && (100 <? Z.of_nat (size (tableMap r)))
          then ∅ else tableMap r)
       ∧ (0 < Z.land RowsFlagEndOfStatement flags →
          (size (tableMap r') ≤ 100)%nat))
  ∧ (∀ evt tme,
       res = Ok evt →
       Type_ (Header evt) = EventTypeTableMap →
       TableMapEventDecode B (Buffer_ evt) (format r) = Ret (Ok tme) →
       tableMap r' = <[tmeTableID tme := tmeTableDescription tme]> (tableMap r)).
Proof.
  intros H.
  assert (∀ evt tableID flags,
            res = Ok evt →
            isRowsEvent (Type_ (Header evt)) = true →
            PeekTableIDAndFlags B (Type_ (Header evt)) (Buffer_ evt) (format r)
              = Ret (tableID, flags) →
            (∃ connBuff, packet = Ok connBuff)
            ∧ is_Some (tableMap r !! tableID)
            ∧ tableMap r' =
              (if (0 <? Z.land RowsFlagEndOfStatement flags)
                  && (100 <? Z.of_nat (size (tableMap r)))
               then ∅ else tableMap r)) as Hrows.
  { intros evt tableID flags -> Hty Hpeek.
    destruct packet as [connBuff|err0]; [|cbn in H; by injection H].
    destruct (ReadEvent_rows_inv _ _ _ _ _ H Hty)
      as (id & fl & td & Hpk & Hlk & _ & ->).
    rewrite Hpeek in Hpk. injection Hpk as <- <-.
    split; [by eexists|]. split; [by rewrite Hlk|].
    destruct ((0 <? Z.land RowsFlagEndOfStatement flags)
              && (100 <? Z.of_nat (size (tableMap r)))); cbn;
      by rewrite ?advance_tableMap. }
  split; [|split].
  - intros id Hin Hout.
    destruct res as [evt|e].
    2:{ exfalso. eapply (ReadEvent_keeps_id _ _ _ _ _ id) in H; [|done|done].
        rewrite Hout in H. by destruct H. }
    destruct (isRowsEvent (Type_ (Header evt))) eqn:Hty.
    2:{ exfalso. eapply (ReadEvent_keeps_id _ _ _ _ _ id) in H; [| |done].
        - rewrite Hout in H. by destruct H.
        - by intros ? [= <-]. }
    destruct packet as [connBuff|err0]; [|cbn in H; by injection H].
    destruct (ReadEvent_rows_inv _ _ _ _ _ H Hty)
      as (tableID & flags & td & Hpk & Hlk & _ & _).
    destruct (Hrows _ _ _ eq_refl Hty Hpk) as (_ & Hsome & Hmap).
    exists connBuff, evt, tableID, flags.
    destruct (0 <? Z.land RowsFlagEndOfStatement flags) eqn:Hflag;
      [|cbn in Hmap; rewrite ?andb_false_r in Hmap; rewrite Hmap in Hout;
       rewrite Hout in Hin; by destruct Hin].
    destruct (100 <? Z.of_nat (size (tableMap r))) eqn:Hsz;
      [|cbn in Hmap; rewrite ?andb_false_r in Hmap; rewrite Hmap in Hout;
       rewrite Hout in Hin; by destruct Hin].
    apply Z.ltb_lt in Hflag, Hsz. repeat split; try done. lia.
  - intros evt tableID flags Hres Hty Hpeek.
    destruct (Hrows _ _ _ Hres Hty Hpeek) as (_ & _ & Hmap).
    split; [done|]. intros Hflag. rewrite Hmap.
    apply Z.ltb_lt in Hflag. rewrite Hflag. cbn.
    destruct (100 <? Z.of_nat (size (tableMap r))) eqn:Hsz.
    + rewrite map_size_empty. lia.
    + apply Z.ltb_ge in Hsz. lia.
  - intros evt tme -> Hty Hdec.
    destruct packet as [connBuff|err0]; [|cbn in H; by injection H].
    by destruct (ReadEvent_table_map_inv _ _ _ _ _ _ H Hty Hdec).
Qed.


Lemma ReadEvent_unknown_table_id_witness :
  ∃ r', ReadEvent specBinlog reader0 (Ok (packet 23 200 (rowsHead 7 1)))
        = Ret (r', Err ErrUnknownTableID)
    ∧ Offset (state r') = 200.
Proof.
  edestruct (ReadEvent_unknown_table_id specBinlog reader0
               (packet 23 200 (rowsHead 7 1))) as (r' & H & Hoff & _).
  - vm_compute. reflexivity.
  - vm_compute. reflexivity.
  - vm_compute. reflexivity.
  - vm_compute. reflexivity.
  - vm_compute. reflexivity.
  - exists r'. split; [exact H|]. apply Hoff. vm_compute. reflexivity.
Defined.

Lemma ReadEvent_flush_keeps_table_witness :
  ∃ r' evt td,
    ReadEvent specBinlog reader101 (Ok (packet 30 900 (rowsHead 5 1)))
      = Ret (r', Ok evt)
    ∧ tableMap reader101 !! 5 = Some td
    ∧ Table evt = Some td
    ∧ tableMap r' = ∅.
Proof.
  edestruct (ReadEvent_flush_keeps_table specBinlog reader101
               (packet 30 900 (rowsHead 5 1)))
    as (r' & evt & H & _ & Htd & _ & Hempty & _).
  - vm_compute. reflexivity.
  - vm_compute. reflexivity.
  - vm_compute. reflexivity.
  - vm_compute. reflexivity.
  - vm_compute. reflexivity.
  - vm_compute. reflexivity.
  - vm_compute. lia.
  - eexists r', evt, _. split; [exact H|]. split; [|split; [exact Htd | exact Hempty]].
    vm_compute. reflexivity.
Defined.

(** C2 as stated fails: after a format description and 101 table-map events
    for distinct tables the table map holds 101 entries. *)
Lemma table_map_exceeds_100 :
  ∃ r' es,
    ReadEvents specBinlog reader0
      (Ok (packet 15 0 formatPayload) :: tableMapPackets 1 101) = Ret (r', es)
    ∧ size (tableMap r') = 101%nat
    ∧ ¬ (size (tableMap r') ≤ 100)%nat.
Proof.
  eexists _, _. split; [vm_compute; reflexivity|].
  split; [vm_compute; reflexivity|]. vm_compute. lia.
Qed.

Lemma ReadEvent_end_of_statement_bound_witness :
  ∃ r' evt,
    ReadEvent specBinlog reader101 (Ok (packet 30 900 (rowsHead 5 1)))
      = Ret (r', Ok evt)
    ∧ tableMap r' = ∅
    ∧ (size (tableMap r') ≤ 100)%nat.
Proof.
  eexists _, _. split; [vm_compute; reflexivity|].
  edestruct (ReadEvent_end_of_statement_bound specBinlog reader101
               (Ok (packet 30 900 (rowsHead 5 1)))) as (_ & Hrows & _).
  { vm_compute. reflexivity. }
  destruct (Hrows _ 5 1 eq_refl) as [Hmap Hbound].
  { vm_compute. reflexivity. }
  { vm_compute. reflexivity. }
  split; [|apply Hbound; vm_compute; reflexivity].
  rewrite Hmap. vm_compute. reflexivity.
Defined.

(** ** The payload of an event *)

Lemma eventBuffer_Ret B fd ty connBuff payload :
  eventBuffer B fd ty connBuff = Ret payload →
  ∃ head tail,
    connBuff = head ++ payload ++ tail
    ∧ Z.of_nat (length head) = HeaderLen B fd
    ∧ length tail =
      if negb (isFormatDescription ty)
         && isCRC32 (ChecksumAlgorithm_ (ServerDetails_ fd))
      then 4%nat else 0%nat.
Proof.
  unfold eventBuffer. intros H. bind_inv H.
  apply slice_from_Ret in Hstep as [Hhl ->].
  exists (take (Z.to_nat (HeaderLen B fd)) connBuff).
  destruct (negb (isFormatDescription ty)
            && isCRC32 (ChecksumAlgorithm_ (ServerDetails_ fd))).
  - apply slice_to_Ret in H as [Hn ->].
    exists (drop (Z.to_nat (Z.of_nat
              (length (drop (Z.to_nat (HeaderLen B fd)) connBuff)) - 4))
              (drop (Z.to_nat (HeaderLen B fd)) connBuff)).
    rewrite !take_drop.
    rewrite length_take, !length_drop in *. repeat split; lia.
  - injection H as <-. exists []. rewrite app_nil_r, take_drop.
    rewrite length_take. simpl. repeat split; lia.
Qed.

(** C6: the payload of a returned event is the packet without its first
    [HeaderLen] bytes (the format's header length), and without exactly
    its last 4 bytes if and only if the reader's format has the CRC32
    checksum and the event is not a format description. *)
Theorem ReadEvent_payload B r connBuff r' evt :
  ReadEvent B r (Ok connBuff) = Ret (r', Ok evt) →
  ∃ head tail,
    connBuff = head ++ Buffer_ evt ++ tail
    ∧ Z.of_nat (length head) = HeaderLen B (format r)
    ∧ (isCRC32 (ChecksumAlgorithm_ (ServerDetails_ (format r))) = true
       ∧ isFormatDescription (Type_ (Header evt)) = false
       → length tail = 4%nat)
    ∧ (¬ (isCRC32 (ChecksumAlgorithm_ (ServerDetails_ (format r))) = true
          ∧ isFormatDescription (Type_ (Header evt)) = false)
       → tail = []).
Proof.
  intros H. apply ReadEvent_Ok_inv in H as (_ & Hbuf & _).
  apply eventBuffer_Ret in Hbuf as (head & tail & Heq & Hlen & Htail).
  exists head, tail. split; [done|]. split; [done|].
  destruct (isCRC32 _), (isFormatDescription _); simpl in Htail; split;
    try (intros [? ?]; done);
    try (intros _; by apply nil_length_inv);
    intros Hn; exfalso; apply Hn; done.
Qed.

Lemma ReadEvent_payload_witness :
  ∃ r' evt,
    ReadEvent specBinlog readerCRC
      (Ok (packet 2 120 [x61; x62; x63; x01; x02; x03; x04])) = Ret (r', Ok evt)
    ∧ Buffer_ evt = [x61; x62; x63].
Proof.
  eexists _, _. split; [vm_compute; reflexivity|].
  edestruct (ReadEvent_payload specBinlog readerCRC
               (packet 2 120 [x61; x62; x63; x01; x02; x03; x04]))
    as (head & tail & Heq & Hhead & Htail & _).
  - vm_compute. reflexivity.
  - reflexivity.
Defined.

(** ** Rotate *)

Lemma Read_Ret n b bs b' :
  Read n b = Ret (bs, b') →
  0 ≤ n ∧ Z.of_nat (pos b) + n ≤ Z.of_nat (length (data b))
  ∧ bs = take (Z.to_nat n) (Cur b)
  ∧ b' = {| data := data b; pos := pos b + Z.to_nat n |}.
Proof.
  unfold Read. destruct (0 <=? n) eqn:H0; [|discriminate].
  destruct (Z.of_nat (pos b) + n <=? Z.of_nat (length (data b))) eqn:H1;
    [|discriminate].
  simpl. intros [= <- <-]. repeat split; lia.
Qed.

Lemma ReadUint_Ret n b v b' :
  ReadUint n b = Ret (v, b') →
  0 ≤ n ∧ Z.of_nat (pos b) + n ≤ Z.of_nat (length (data b))
  ∧ v = le_value (take (Z.to_nat n) (Cur b))
  ∧ b' = {| data := data b; pos := pos b + Z.to_nat n |}.
Proof.
  unfold ReadUint. intros H. bind_inv H. destruct a as [bs b1].
  injection H as <- <-. apply Read_Ret in Hstep as (? & ? & -> & ->). done.
Qed.

Lemma RotateEventDecode_Ret connBuff fd p :
  RotateEventDecode connBuff fd = Ret p →
  (1 < Version fd →
   (8 ≤ length connBuff)%nat
   ∧ p = {| File := drop 8 connBuff; Offset := le_value (take 8 connBuff) |})
  ∧ (Version fd ≤ 1 → p = {| File := connBuff; Offset := 4 |}).
Proof.
  unfold RotateEventDecode. intros H. bind_inv H. destruct a as [offset buf].
  simpl in H. injection H as <-.
  destruct (1 <? Version fd) eqn:Hv.
  - apply Z.ltb_lt in Hv. split; [intros _|lia].
    apply ReadUint_Ret in Hstep as (_ & Hlen & -> & ->).
    simpl in *. unfold Cur. simpl. split; [lia | done].
  - apply Z.ltb_ge in Hv. split; [lia|intros _].
    injection Hstep as <- <-. done.
Qed.

Lemma ReadEvent_rotate B r connBuff header payload :
  EventHeaderDecode B connBuff (format r) = Ret (Ok header) →
  Type_ header = EventTypeRotate →
  eventBuffer B (format r) (Type_ header) connBuff = Ret payload →
  ReadEvent B r (Ok connBuff) =
  nextFile ← RotateEventDecode payload (format r);
  mret ({| state := nextFile; format := format r; tableMap := tableMap r |},
        Ok {| Format := format r; Header := header; Buffer_ := payload;
              EventOffset := Offset (state r); Table := None |}).
Proof.
  intros Hhd Hty Hbuf. unfold ReadEvent.
  rewrite Hhd. simpl. rewrite !advance_format, !advance_tableMap, Hbuf. simpl.
  by rewrite Hty.
Qed.

(** C5, as the code has it: a Rotate event replaces the reader's position
    by the decoded pair. With a format version above 1 the offset is the
    little-endian value of the payload's first 8 bytes, whatever it is, and
    the file is the rest of the payload; otherwise the offset is 4 and the
    file is the whole payload. *)
Theorem ReadEvent_rotate_position B r connBuff r' evt :
  ReadEvent B r (Ok connBuff) = Ret (r', Ok evt) →
  Type_ (Header evt) = EventTypeRotate →
  (1 < Version (format r) →
   (8 ≤ length (Buffer_ evt))%nat
   ∧ state r' = {| File := drop 8 (Buffer_ evt);
                   Offset := le_value (take 8 (Buffer_ evt)) |})
  ∧ (Version (format r) ≤ 1 →
     state r' = {| File := Buffer_ evt; Offset := 4 |}
     ∧ 4 ≤ Offset (state r'))
  ∧ format r' = format r ∧ tableMap r' = tableMap r.
Proof.
  intros H Hty. pose proof (ReadEvent_Ok_inv _ _ _ _ _ H) as (Hhd & Hbuf & _).
  rewrite (ReadEvent_rotate _ _ _ _ _ Hhd Hty Hbuf) in H.
  bind_inv H. injection H as <- _.
  apply RotateEventDecode_Ret in Hstep as [Hnew Hold]. simpl.
  repeat split.
  - by apply Hnew.
  - by apply Hnew.
  - by apply Hold.
  - rewrite Hold; [simpl; lia | done].
Qed.

Lemma ReadEvent_rotate_position_witness :
  ∃ r' evt,
    ReadEvent specBinlog readerV4 (Ok (packet 4 0 (rotatePayload 4 "mysql-bin.000042")))
      = Ret (r', Ok evt)
    ∧ state r' = {| File := list_byte_of_string "mysql-bin.000042"; Offset := 4 |}.
Proof.
  eexists _, _. split; [vm_compute; reflexivity|].
  edestruct (ReadEvent_rotate_position specBinlog readerV4
               (packet 4 0 (rotatePayload 4 "mysql-bin.000042")))
    as (Hnew & _).
  - vm_compute. reflexivity.
  - vm_compute. reflexivity.
  - destruct Hnew as [_ ->]; [vm_compute; reflexivity|].
    vm_compute. reflexivity.
Defined.

(** C5 as stated fails: a Rotate event whose offset field is 0 (eight zero
    bytes) leaves the reader at offset 0 of the target file. *)
Lemma rotate_offset_below_4 :
  ∃ r' evt,
    ReadEvent specBinlog readerV4 (Ok (packet 4 0 (rotatePayload 0 "b")))
      = Ret (r', Ok evt)
    ∧ Type_ (Header evt) = EventTypeRotate
    ∧ File (state r') = list_byte_of_string "b"
    ∧ ¬ (4 ≤ Offset (state r')).
Proof.
  eexists _, _. split; [vm_compute; reflexivity|].
  split; [reflexivity|]. split; [reflexivity|]. cbn. lia.
Qed.

(** ** New *)

Lemma Connect_Ok env dsn sc conn :
  Connect env dsn sc = Ok conn →
  ConfFile (conf conn) = ConfFile sc
  ∧ ConfServerID (conf conn) = ConfServerID sc
  ∧ ConfOffset (conf conn) = (if ConfOffset sc =? 0 then 4 else ConfOffset sc).
Proof.
  unfold Connect. intros H.
  destruct (decide (ConfHostname sc = [])); [destruct (osHostname env)|];
    try discriminate; simpl in H;
    destruct (ConfOffset sc =? 0), (openConn env), (extendConn env);
    try discriminate; injection H as <-; done.
Qed.

(** C4, as the code has it: the reader [New] returns starts at the
    configured position as it is, [(config.file, config.offset)]; the
    connection's copy of the configuration has the offset 0 replaced by 4
    and every other offset unchanged. *)
Theorem NewReader_position B env dsn sc r conn :
  NewReader B env dsn sc = Ok (r, conn) →
  state r = {| File := ConfFile sc; Offset := ConfOffset sc |}
  ∧ tableMap r = ∅
  ∧ ConfFile (conf conn) = ConfFile sc
  ∧ ConfOffset (conf conn) = (if ConfOffset sc =? 0 then 4 else ConfOffset sc).
Proof.
  unfold NewReader. intros H.
  destruct (Connect env dsn sc) as [c|] eqn:Hc; [|discriminate].
  destruct (disableChecksum env), (registerSlave env), (startBinlogDump env);
    try discriminate.
  injection H as <- <-. apply Connect_Ok in Hc as (? & _ & ?). done.
Qed.

Lemma NewReader_position_witness :
  ∃ r conn,
    NewReader specBinlog calmSession [] (config [x62] 0) = Ok (r, conn)
    ∧ state r = {| File := [x62]; Offset := 0 |}
    ∧ ConfOffset (conf conn) = 4.
Proof.
  eexists _, _. split; [vm_compute; reflexivity|].
  edestruct (NewReader_position specBinlog calmSession [] (config [x62] 0))
    as (Hstate & _ & _ & Hoff).
  - vm_compute. reflexivity.
  - split; [exact Hstate | exact Hoff].
Defined.

(** C4 as stated fails: configured with offset 2, the reader starts at
    offset 2, not at max(2, 4) = 4. *)
Lemma NewReader_offset_below_4 :
  ∃ r conn,
    NewReader specBinlog calmSession [] (config [x62] 2) = Ok (r, conn)
    ∧ state r = {| File := [x62]; Offset := 2 |}
    ∧ state r ≠ {| File := [x62]; Offset := Z.max 2 4 |}.
Proof.
  eexists _, _. split; [vm_compute; reflexivity|].
  split; [reflexivity|]. cbn. discriminate.
Qed.

(** ** decodeValue: String columns *)

Lemma wrap_small bits z : 0 ≤ z < 2 ^ bits → wrap bits z = z.
Proof. intros H. unfold wrap. by apply Z.mod_small. Qed.

Lemma land_0x30_xor_bound t : 0 ≤ t → 0 ≤ Z.lxor (Z.land t 0x30) 0x30 < 64.
Proof.
  intros Ht.
  assert (0 ≤ Z.land t 0x30) as Hland by (apply Z.land_nonneg; lia).
  assert (0 ≤ Z.lxor (Z.land t 0x30) 0x30) as Hxor by (apply Z.lxor_nonneg; lia).
  split; [done|].
  destruct (Z.eq_dec (Z.lxor (Z.land t 0x30) 0x30) 0) as [->|Hne]; [lia|].
  apply (Z.log2_lt_pow2 _ 6); [lia|].
  eapply Z.le_lt_trans; [apply Z.log2_lxor; lia|].
  apply Z.max_lub_lt; [|reflexivity].
  eapply Z.le_lt_trans; [apply Z.log2_land; lia|].
  apply Z.min_lt_iff. right. reflexivity.
Qed.

Lemma decodeTyped_String C buf length meta :
  decodeTyped C buf ColumnTypeString length meta = readString buf length.
Proof. reflexivity. Qed.

Lemma readString_prefix buf length :
  readString buf length =
  '(s, buf') ← ReadStringVarEnc (if length <? 256 then 1 else 2) buf;
  mret (VString s, buf').
Proof. unfold readString. by destruct (length <? 256). Qed.

(** C8: for a String column (code 0xFE) whose meta is above 0xFF, the
    decoder splits the meta into [typeByte = meta >> 8] and
    [lengthByte = meta & 0xFF]. If [typeByte & 0x30] is not 0x30, the value
    is decoded as type [typeByte | 0x30] with the length
    [lengthByte | (((typeByte & 0x30) xor 0x30) << 4)]; otherwise as type
    [typeByte] with the length [lengthByte]. When that type is String, the
    value is a string read behind a 1-byte length prefix if the length is
    below 256 and behind a 2-byte prefix otherwise. *)
Theorem decodeValue_String_meta C buf meta :
  0xFF < meta → meta < 2 ^ 16 →
  let typeByte := Z.shiftr meta 8 in
  let lengthByte := Z.land meta 0xFF in
  let ct :=
    if Z.land typeByte 0x30 =? 0x30 then typeByte else Z.lor typeByte 0x30 in
  let length :=
    if Z.land typeByte 0x30 =? 0x30 then lengthByte
    else Z.lor lengthByte (Z.shiftl (Z.lxor (Z.land typeByte 0x30) 0x30) 4) in
  decodeValue C buf ColumnTypeString meta = decodeTyped C buf ct length meta
  ∧ (ct = ColumnTypeString →
     decodeValue C buf ColumnTypeString meta =
     '(s, buf') ← ReadStringVarEnc (if length <? 256 then 1 else 2) buf;
     mret (VString s, buf')).
Proof.
  intros Hlo Hhi typeByte lengthByte ct length.
  assert (decodeValue C buf ColumnTypeString meta = decodeTyped C buf ct length meta)
    as Heq.
  { unfold decodeValue, stringMeta. rewrite Z.eqb_refl.
    assert ((0xFF <? meta) = true) as -> by (apply Z.ltb_lt; lia).
    assert (0 ≤ typeByte < 2 ^ 8) as HtB.
    { unfold typeByte. rewrite Z.shiftr_div_pow2 by lia. split.
      - apply Z.div_pos; lia.
      - apply Z.div_lt_upper_bound; lia. }
    assert (0 ≤ lengthByte < 2 ^ 8) as HlB.
    { unfold lengthByte. change 0xFF with (Z.ones 8).
      rewrite Z.land_ones by lia. apply Z.mod_pos_bound. lia. }
    fold typeByte lengthByte. rewrite !(wrap_small 8) by done.
    rewrite (wrap_small 16).
    - unfold ct, length. by destruct (Z.land typeByte 0x30 =? 0x30).
    - pose proof (land_0x30_xor_bound typeByte (proj1 HtB)) as Hx.
      rewrite Z.shiftl_mul_pow2 by lia. lia. }
  split; [exact Heq|].
  intros Hct. rewrite Heq, Hct, decodeTyped_String. apply readString_prefix.
Qed.

Lemma decodeValue_String_meta_witness :
  decodeValue rawCodec (New [x03; x00; x61; x62; x63]) ColumnTypeString 0xEE05
  = Ret (VString [x61; x62; x63],
         {| data := [x03; x00; x61; x62; x63]; pos := 5 |}).
Proof.
  destruct (decodeValue_String_meta rawCodec (New [x03; x00; x61; x62; x63]) 0xEE05)
    as [_ H]; [lia | lia |].
  rewrite H; reflexivity.
Defined.

(** ** PeekTableIDAndFlags and Decode *)

Lemma ReadUint_New_Decode (n : nat) bs v b' :
  ReadUint (Z.of_nat n) (New bs) = Ret (v, b') →
  DecodeUint n bs = Ret v ∧ b' = {| data := bs; pos := n |} ∧ (n ≤ length bs)%nat.
Proof.
  intros H. apply ReadUint_Ret in H as (_ & Hlen & -> & ->).
  simpl in *. unfold DecodeUint, Cur. simpl. rewrite Nat2Z.id.
  assert ((n <=? length bs)%nat = true) as -> by (apply Nat.leb_le; lia).
  repeat split; try done; lia.
Qed.

Lemma ReadUint_at_Decode (n k : nat) bs v b' :
  ReadUint (Z.of_nat n) {| data := bs; pos := k |} = Ret (v, b') →
  slice_from bs (Z.of_nat k) = Ret (drop k bs)
  ∧ DecodeUint n (drop k bs) = Ret v.
Proof.
  intros H. apply ReadUint_Ret in H as (_ & Hlen & -> & ->).
  simpl in *. unfold DecodeUint, slice_from, Cur. simpl.
  rewrite !Nat2Z.id, length_drop.
  assert ((0 <=? Z.of_nat k) && (Z.of_nat k <=? Z.of_nat (length bs)) = true) as ->.
  { apply andb_true_iff. split; apply Z.leb_le; lia. }
  assert ((n <=? length bs - k)%nat = true) as -> by (apply Nat.leb_le; lia).
  done.
Qed.

(** The first two reads of [Decode]'s body give the pair that
    [PeekTableIDAndFlags] returns. *)
Lemma decodeBody_head B C fuel ty connBuff fd td e :
  decodeBody B C fuel ty connBuff fd td = Ret e →
  PeekTableIDAndFlags B ty connBuff fd = Ret (TableID e, Flags e).
Proof.
  unfold decodeBody, PeekTableIDAndFlags. intros H.
  bind_inv H. destruct a as [tableID buf1].
  bind_inv H. destruct a as [flags buf2].
  bind_inv H. destruct a as [extra buf3].
  bind_inv H. destruct a as [cc buf4].
  bind_inv H. destruct a as [bm1 buf5].
  bind_inv H. destruct a as [bm2 buf6].
  bind_inv H. injection H as <-. simpl.
  destruct (TableIDSize B fd ty =? 6).
  - apply (ReadUint_New_Decode 6) in Hstep as (Hid & -> & _).
    apply (ReadUint_at_Decode 2 6) in Hstep0 as (Hslice & Hfl).
    unfold DecodeUint48, DecodeUint16. rewrite Hid. simpl.
    change 6 with (Z.of_nat 6). rewrite Hslice. simpl. by rewrite Hfl.
  - apply (ReadUint_New_Decode 4) in Hstep as (Hid & -> & _).
    apply (ReadUint_at_Decode 2 4) in Hstep0 as (Hslice & Hfl).
    unfold DecodeUint32, DecodeUint16. rewrite Hid. simpl.
    change 4 with (Z.of_nat 4). rewrite Hslice. simpl. by rewrite Hfl.
Qed.

(** C9: whenever [Decode] succeeds on a buffer, [PeekTableIDAndFlags] on the
    same buffer and format returns the table id and the flags that [Decode]
    gave the event, with the 6-byte and with the 4-byte table id. *)
Theorem Peek_agrees_with_Decode B C fuel ty connBuff fd td e :
  Decode B C fuel ty connBuff fd td = Ret (Ok e) →
  PeekTableIDAndFlags B ty connBuff fd = Ret (TableID e, Flags e).
Proof.
  unfold Decode. intros H.
  destruct (decodeBody B C fuel ty connBuff fd td) as [e'| |] eqn:Hbody;
    try discriminate.
  injection H as ->. by eapply decodeBody_head.
Qed.

Lemma Peek_agrees_with_Decode_witness :
  ∃ e, Decode specBinlog rawCodec 1 EventTypeWriteRowsV1 sampleRows zeroFormat
         sampleTable = Ret (Ok e)
    ∧ PeekTableIDAndFlags specBinlog EventTypeWriteRowsV1 sampleRows zeroFormat
      = Ret (5, 1).
Proof.
  eexists. split; [vm_compute; reflexivity|].
  eapply (Peek_agrees_with_Decode specBinlog rawCodec 1 EventTypeWriteRowsV1
            sampleRows zeroFormat sampleTable
            {| RowsEventType := EventTypeWriteRowsV1; TableID := 5; Flags := 1;
               ExtraData := []; ColumnCount := 3; ColumnBitmap1 := [x07];
               ColumnBitmap2 := []; Rows := _ |}).
  vm_compute. reflexivity.
Defined.

(** ** Unsupported column types *)

Lemma not_elem_existsb ct (l : list Z) :
  ct ∉ l → existsb (Z.eqb ct) l = false.
Proof.
  induction l as [|c l IH]; [done|]. intros Hn. simpl.
  apply not_elem_of_cons in Hn as [Hne Hl].
  rewrite (IH Hl), orb_false_r. by apply Z.eqb_neq.
Qed.

Lemma decodeTyped_unsupported C buf ct length meta :
  unsupportedType ct →
  decodeTyped C buf ct length meta = Ret (VUnsupportedType ct meta (Cur buf), buf).
Proof.
  intros [-> | [-> | Hn]]; [reflexivity | reflexivity |].
  apply not_elem_existsb in Hn. unfold supportedTypes in Hn.
  cbn [existsb] in Hn. unfold decodeTyped.
  repeat (apply orb_false_elim in Hn as [Hc Hn]; rewrite ?Hc; clear Hc).
  reflexivity.
Qed.

Lemma decodeValue_unsupported C buf ct meta :
  unsupportedType (stringMeta ct meta).1 →
  decodeValue C buf ct meta =
  Ret (VUnsupportedType (stringMeta ct meta).1 meta (Cur buf), buf).
Proof.
  intros H. unfold decodeValue. destruct (stringMeta ct meta) as [ct' len].
  by apply decodeTyped_unsupported.
Qed.

(** The whole event decodes, with the sentinel in the Decimal column's
    slot. *)
Example Decode_sampleRows :
  Decode specBinlog rawCodec 1 EventTypeWriteRowsV1 sampleRows zeroFormat
    sampleTable
  = Ret (Ok {| RowsEventType := EventTypeWriteRowsV1; TableID := 5; Flags := 1;
               ExtraData := []; ColumnCount := 3; ColumnBitmap1 := [x07];
               ColumnBitmap2 := [];
               Rows := [[VUint 32 1;
                         VUnsupportedType ColumnTypeDecimal 0
                           (x05 :: list_byte_of_string "alice");
                         VString (list_byte_of_string "alice")]] |}).
Proof. vm_compute. reflexivity. Qed.

(** ** Panics *)

(** [Decode] never lets a panic through: a panic of its body is the error
    it returns. *)
Lemma Decode_recovers B C fuel ty connBuff fd td :
  Decode B C fuel ty connBuff fd td ≠ Panic
  ∧ (decodeBody B C fuel ty connBuff fd td = Panic →
     Decode B C fuel ty connBuff fd td = Ret (Err ErrRecovered)).
Proof.
  unfold Decode. destruct (decodeBody B C fuel ty connBuff fd td); done.
Qed.

(** [PeekTableIDAndFlags] has no recover: on a buffer of fewer than 4 bytes
    it panics, whatever the size of the table id. *)
Lemma PeekTableIDAndFlags_short B ty connBuff fd :
  (length connBuff < 4)%nat → PeekTableIDAndFlags B ty connBuff fd = Panic.
Proof.
  intros Hlen. unfold PeekTableIDAndFlags, DecodeUint48, DecodeUint32, DecodeUint.
  assert ((6 <=? length connBuff)%nat = false) as -> by (apply Nat.leb_gt; lia).
  assert ((4 <=? length connBuff)%nat = false) as -> by (apply Nat.leb_gt; lia).
  by destruct (TableIDSize B fd ty =? 6).
Qed.

(** C3 fails for [PeekTableIDAndFlags]: on the truncated payload
    [05 00 00] it panics for every event type and format, and [ReadEvent],
    which calls it without a recover, panics on a rows-event packet with
    that payload. *)
Theorem PeekTableIDAndFlags_truncated_panics :
  (∀ B ty fd, PeekTableIDAndFlags B ty [x05; x00; x00] fd = Panic)
  ∧ ReadEvent specBinlog reader101 (Ok (packet 23 200 [x05; x00; x00])) = Panic.
Proof.
  split.
  - intros B ty fd. apply PeekTableIDAndFlags_short. simpl. lia.
  - vm_compute. reflexivity.
Qed.

(** A round of [Decode]'s loop that reads no byte while bytes are left is
    repeated for ever: no amount of fuel lets the loop return. *)
Lemma decodeLoop_no_progress C ty cc td bm1 bm2 fuel rows buf row1 row2 :
  More buf = true →
  decodeRows C cc buf td bm1 = Ret (row1, buf) →
  (RowsEventHasSecondBitmap ty = true →
   decodeRows C cc buf td bm2 = Ret (row2, buf)) →
  decodeLoop C ty cc td bm1 bm2 fuel rows buf = OutOfFuel.
Proof.
  intros Hmore Hrow1 Hrow2. revert rows.
  induction fuel as [|fuel IH]; intros rows; [done|].
  cbn [decodeLoop]. rewrite Hrow1. simpl.
  destruct (RowsEventHasSecondBitmap ty); simpl.
  - rewrite Hrow2 by done. simpl. rewrite Hmore. simpl. apply IH.
  - rewrite Hmore. simpl. apply IH.
Qed.

(** A rows-event without a present column but with bytes left: [Decode]
    does not return on it, with the 6-byte and with the 4-byte table id. *)
Lemma Decode_no_column_never_returns B C fuel fd td :
  Decode B C fuel EventTypeWriteRowsV1 noColumnRows fd td = OutOfFuel.
Proof.
  unfold Decode, decodeBody.
  change (RowsEventHasExtraData EventTypeWriteRowsV1) with false.
  change (RowsEventHasSecondBitmap EventTypeWriteRowsV1) with false.
  destruct (TableIDSize B fd EventTypeWriteRowsV1 =? 6).
  - assert (ReadUint48 (New noColumnRows) = Ret (5, mkBuffer noColumnRows 6))
      as -> by reflexivity.
    cbn [mbind outcome_bind].
    assert (ReadUint16 (mkBuffer noColumnRows 6) = Ret (1, mkBuffer noColumnRows 8))
      as -> by reflexivity.
    cbn [mbind outcome_bind mret outcome_ret].
    assert (ReadUintLenEnc (mkBuffer noColumnRows 8)
            = Ret ((0, false, 1), mkBuffer noColumnRows 9)) as -> by reflexivity.
    cbn [mbind outcome_bind fst].
    assert (ReadStringVarLen (Z.quot (to_int (wrap 64 (0 + 7))) 8)
              (mkBuffer noColumnRows 9) = Ret ([], mkBuffer noColumnRows 9))
      as -> by reflexivity.
    cbn [mbind outcome_bind mret outcome_ret].
    by erewrite (decodeLoop_no_progress _ _ _ _ _ _ _ _ _ [] []).
  - assert (ReadUint32 (New noColumnRows) = Ret (5, mkBuffer noColumnRows 4))
      as -> by reflexivity.
    cbn [mbind outcome_bind].
    assert (ReadUint16 (mkBuffer noColumnRows 4) = Ret (0, mkBuffer noColumnRows 6))
      as -> by reflexivity.
    cbn [mbind outcome_bind mret outcome_ret].
    assert (ReadUintLenEnc (mkBuffer noColumnRows 6)
            = Ret ((1, false, 1), mkBuffer noColumnRows 7)) as -> by reflexivity.
    cbn [mbind outcome_bind fst].
    assert (ReadStringVarLen (Z.quot (to_int (wrap 64 (1 + 7))) 8)
              (mkBuffer noColumnRows 7) = Ret ([x00], mkBuffer noColumnRows 8))
      as -> by reflexivity.
    cbn [mbind outcome_bind mret outcome_ret].
    by erewrite (decodeLoop_no_progress _ _ _ _ _ _ _ _ _ [VNil] []).
Qed.

(** ** Fuel *)

(** More fuel does not change what the loop does once it returns or
    panics: what [Decode] returns with some fuel is what the Go loop
    returns. *)
Lemma decodeLoop_fuel_mono C ty cc td bm1 bm2 fuel fuel' rows buf :
  (fuel ≤ fuel')%nat →
  decodeLoop C ty cc td bm1 bm2 fuel rows buf ≠ OutOfFuel →
  decodeLoop C ty cc td bm1 bm2 fuel' rows buf
  = decodeLoop C ty cc td bm1 bm2 fuel rows buf.
Proof.
  revert fuel' rows buf. induction fuel as [|fuel IH]; intros fuel' rows buf Hle H;
    [done|].
  destruct fuel' as [|fuel']; [lia|]. cbn [decodeLoop] in *.
  destruct (decodeRows C cc buf td bm1) as [[row buf1]| |]; try done.
  simpl in *.
  destruct (if RowsEventHasSecondBitmap ty
            then decodeRows C cc buf1 td bm2
                 ≫= (λ '(row2, buf2), mret ((rows ++ [row]) ++ [row2], buf2))
            else mret (rows ++ [row], buf1)) as [[rows2 buf2]| |];
    try done.
  simpl in *. destruct (More buf2); simpl in *; [|done].
  apply IH; [lia | done].
Qed.

Lemma Decode_fuel_mono B C fuel fuel' ty connBuff fd td res :
  (fuel ≤ fuel')%nat →
  Decode B C fuel ty connBuff fd td = Ret res →
  Decode B C fuel' ty connBuff fd td = Ret res.
Proof.
  intros Hle. unfold Decode, decodeBody.
  destruct (if TableIDSize B fd ty =? 6 then ReadUint48 (New connBuff)
            else ReadUint32 (New connBuff)) as [[tableID buf1]| |]; simpl; try done.
  destruct (ReadUint16 buf1) as [[flags buf2]| |]; simpl; try done.
  destruct (if RowsEventHasExtraData ty
            then ReadUint16 buf2
                 ≫= (λ '(len, buf'), ReadStringVarLen (wrap 16 (len - 2)) buf')
            else mret ([], buf2)) as [[extra buf3]| |]; simpl; try done.
  destruct (ReadUintLenEnc buf3) as [[cc buf4]| |]; simpl; try done.
  destruct (ReadStringVarLen _ buf4) as [[bm1 buf5]| |]; simpl; try done.
  destruct (if RowsEventHasSecondBitmap ty then ReadStringVarLen _ buf5
            else mret ([], buf5)) as [[bm2 buf6]| |]; simpl; try done.
  destruct (decodeLoop C ty cc.1.1 td bm1 bm2 fuel [] buf6) as [rows| |] eqn:Hloop;
    simpl; try done;
    rewrite (decodeLoop_fuel_mono _ _ _ _ _ _ _ _ _ _ Hle), Hloop;
    try done; by rewrite Hloop.
Qed.

(** * Further properties *)

(** ** ReadEvent: what a call changes *)

Lemma RowsEventVersion_isRowsEvent et :
  (RowsEventVersion et <? 0) = negb (isRowsEvent et).
Proof. by destruct et. Qed.

(** X1: the format of a returned event is the reader's format after the
    call; only a format description event changes the reader's format. *)
Theorem ReadEvent_event_format B r connBuff r' evt :
  ReadEvent B r (Ok connBuff) = Ret (r', Ok evt) →
  Format evt = format r'
  ∧ (isFormatDescription (Type_ (Header evt)) = false → format r' = format r).
Proof.
  intros H. read_event_cases H; reader_simpl;
    repeat match goal with
           | Hty : Type_ _ = _ |- _ => rewrite Hty; clear Hty
           end; done.
Qed.

(** X2: a returned event has a table description exactly when it is one of
    the nine rows-events, and the description is then the one the table map
    had for the peeked table id. *)
Theorem ReadEvent_table_iff_rows B r connBuff r' evt :
  ReadEvent B r (Ok connBuff) = Ret (r', Ok evt) →
  (is_Some (Table evt) ↔ isRowsEvent (Type_ (Header evt)) = true)
  ∧ ∀ td, Table evt = Some td →
      ∃ tableID flags,
        PeekTableIDAndFlags B (Type_ (Header evt)) (Buffer_ evt) (format r)
          = Ret (tableID, flags)
        ∧ tableMap r !! tableID = Some td.
Proof.
  intros H. read_event_cases H; cbn;
    repeat match goal with
           | Hty : Type_ _ = _ |- _ => rewrite Hty in *
           end; cbn;
    (split; [split; [intros [? ?]; done | try done; eauto] |]);
    intros td [= <-];
    rewrite ?advance_format, ?advance_tableMap in *; eauto.
Qed.

(** X3: a call of [ReadEvent] that returns an error leaves the format, the
    table map and the file of the position as they were; when the packet
    could not be read, or its header not decoded, the offset too. *)
Theorem ReadEvent_error_frame B r packet r' e :
  ReadEvent B r packet = Ret (r', Err e) →
  format r' = format r ∧ tableMap r' = tableMap r
  ∧ File (state r') = File (state r)
  ∧ ((∃ err, packet = Err err)
     ∨ (∃ connBuff err, packet = Ok connBuff
          ∧ EventHeaderDecode B connBuff (format r) = Ret (Err err))
     → r' = r).
Proof.
  intros H. destruct packet as [connBuff|err0].
  - read_event_cases H; reader_simpl; repeat split; try done;
      intros [[? [=]] | (cb & err & [= <-] & Hd)]; congruence.
  - cbn in H. injection H as <- <-. done.
Qed.

(** X4: for every returned event other than a Rotate, the reader's offset
    after the call is the header's [NextOffset] when that is above 0 and
    the old offset otherwise, the file is unchanged, and the event's
    [Offset] is the reader's offset before the call. *)
Theorem ReadEvent_offset B r connBuff r' evt :
  ReadEvent B r (Ok connBuff) = Ret (r', Ok evt) →
  Type_ (Header evt) ≠ EventTypeRotate →
  Offset (State r') =
    (if 0 <? NextOffset (Header evt) then NextOffset (Header evt)
     else Offset (State r))
  ∧ File (State r') = File (State r)
  ∧ EventOffset evt = Offset (State r).
Proof.
  unfold State. intros H. read_event_cases H; cbn; intros Hne; try done;
    repeat match goal with
           | |- context [if ?c then initTableMap _ else _] => destruct c
           end; cbn; rewrite ?advance_File, ?advance_Offset; done.
Qed.

(** X5: a call of [ReadEvent] adds at most one entry to the table map, and
    while the map holds at most 100 entries no call removes a table id
    from it. *)
Theorem ReadEvent_keeps_entries B r packet r' res :
  ReadEvent B r packet = Ret (r', res) →
  (size (tableMap r') ≤ S (size (tableMap r)))%nat
  ∧ ((size (tableMap r) ≤ 100)%nat →
     ∀ id, is_Some (tableMap r !! id) → is_Some (tableMap r' !! id)).
Proof.
  intros H. destruct packet as [connBuff|err0];
    [|cbn in H; injection H as <- <-; split; [lia | done]].
  read_event_cases H; cbn; rewrite ?advance_tableMap;
    try (split; [lia | done]);
    first
      [ split;
        [ rewrite map_size_insert; destruct (tableMap r !! _); cbn; lia
        | intros _ id Hid; apply lookup_insert_is_Some'; by right ]
      | destruct (0 <? Z.land RowsFlagEndOfStatement _); cbn;
        [|rewrite advance_tableMap; split; [lia | done]];
        destruct (100 <? Z.of_nat (size (tableMap r))) eqn:Hsz; cbn;
        [|rewrite advance_tableMap; split; [lia | done]];
        apply Z.ltb_lt in Hsz; split; [rewrite map_size_empty; lia | lia] ].
Qed.

(** ** ReadEvent: consecutive calls *)

(** X6: after a call that returned a TableMap event, a rows-event whose
    peeked table id is the one of that TableMap event is returned with the
    description the TableMap event carried. *)
Theorem table_map_then_rows B r p1 r1 e1 tme p2 header2 payload2 flags2 :
  ReadEvent B r (Ok p1) = Ret (r1, Ok e1) →
  Type_ (Header e1) = EventTypeTableMap →
  TableMapEventDecode B (Buffer_ e1) (format r) = Ret (Ok tme) →
  EventHeaderDecode B p2 (format r1) = Ret (Ok header2) →
  isRowsEvent (Type_ header2) = true →
  eventBuffer B (format r1) (Type_ header2) p2 = Ret payload2 →
  PeekTableIDAndFlags B (Type_ header2) payload2 (format r1)
    = Ret (tmeTableID tme, flags2) →
  ∃ r2 e2, ReadEvent B r1 (Ok p2) = Ret (r2, Ok e2)
    ∧ Header e2 = header2
    ∧ Table e2 = Some (tmeTableDescription tme).
Proof.
  intros H1 Hty Hdec Hhd Hrows Hbuf Hpeek.
  destruct (ReadEvent_table_map_inv _ _ _ _ _ _ H1 Hty Hdec) as [Hmap _].
  rewrite (ReadEvent_rows _ _ _ _ _ _ _ Hhd Hrows Hbuf Hpeek).
  rewrite Hmap, lookup_insert_eq. eexists _, _. split; [reflexivity|]. done.
Qed.

(** X7: the flush drops every mapping, the one of the event that triggers
    it too: after a call that returned a rows-event with EndOfStatement
    while the map held more than 100 entries, the next rows-event is
    rejected with [ErrUnknownTableID], whatever its table id. *)
Theorem flush_then_rows_rejected B r p1 r1 e1 id1 flags1 p2 header2 payload2
    id2 flags2 :
  ReadEvent B r (Ok p1) = Ret (r1, Ok e1) →
  isRowsEvent (Type_ (Header e1)) = true →
  PeekTableIDAndFlags B (Type_ (Header e1)) (Buffer_ e1) (format r)
    = Ret (id1, flags1) →
  0 < Z.land RowsFlagEndOfStatement flags1 →
  (100 < size (tableMap r))%nat →
  EventHeaderDecode B p2 (format r1) = Ret (Ok header2) →
  isRowsEvent (Type_ header2) = true →
  eventBuffer B (format r1) (Type_ header2) p2 = Ret payload2 →
  PeekTableIDAndFlags B (Type_ header2) payload2 (format r1)
    = Ret (id2, flags2) →
  ∃ r2, ReadEvent B r1 (Ok p2) = Ret (r2, Err ErrUnknownTableID)
    ∧ tableMap r2 = ∅.
Proof.
  intros H1 Hrows1 Hpeek1 Hflag Hsize Hhd Hrows Hbuf Hpeek.
  destruct (ReadEvent_rows_inv _ _ _ _ _ H1 Hrows1)
    as (id & fl & td & Hpk & _ & _ & Hr1).
  rewrite Hpeek1 in Hpk. injection Hpk as <- <-.
  apply Z.ltb_lt in Hflag. rewrite Hflag in Hr1.
  assert ((100 <? Z.of_nat (size (tableMap r))) = true) as Hsz
    by (apply Z.ltb_lt; lia).
  rewrite Hsz in Hr1. cbn in Hr1.
  assert (tableMap r1 = ∅) as Hempty by (by rewrite Hr1).
  rewrite (ReadEvent_rows _ _ _ _ _ _ _ Hhd Hrows Hbuf Hpeek).
  rewrite Hempty, lookup_empty. eexists. split; [reflexivity|].
  by rewrite advance_tableMap.
Qed.

(** X8: [DecodeRows] on an event [ReadEvent] returned never dereferences a
    nil table and never panics: an event that is not a rows-event gives the
    error "invalid rows event", and a rows-event is decoded against the
    description attached to it. *)
Theorem DecodeRows_of_returned_event B C fuel r connBuff r' evt :
  ReadEvent B r (Ok connBuff) = Ret (r', Ok evt) →
  DecodeRows B C fuel evt ≠ Panic
  ∧ (isRowsEvent (Type_ (Header evt)) = false →
     DecodeRows B C fuel evt = Ret (Err ErrInvalidRowsEvent))
  ∧ (isRowsEvent (Type_ (Header evt)) = true →
     ∃ td, Table evt = Some td
       ∧ DecodeRows B C fuel evt =
         Decode B C fuel (Type_ (Header evt)) (Buffer_ evt) (Format evt) td).
Proof.
  intros H. unfold DecodeRows. rewrite RowsEventVersion_isRowsEvent.
  destruct (isRowsEvent (Type_ (Header evt))) eqn:Hrows; cbn.
  - destruct (ReadEvent_rows_inv _ _ _ _ _ H Hrows)
      as (id & fl & td & _ & _ & Htd & _).
    rewrite Htd. repeat split; [apply Decode_recovers | done | eauto].
  - repeat split; done.
Qed.

(** ** Bytes and bitmaps *)

Lemma byte_val_bound b : 0 ≤ byte_val b < 256.
Proof.
  unfold byte_val. pose proof (Byte.to_N_bounded b) as H.
  split; [apply N2Z.is_nonneg|]. apply N2Z.inj_le in H. simpl in H. lia.
Qed.

Lemma le_value_nonneg bs : 0 ≤ le_value bs.
Proof.
  induction bs as [|b bs IH]; simpl; [lia|].
  pose proof (byte_val_bound b). lia.
Qed.

Lemma le_value_bound bs : le_value bs < 256 ^ Z.of_nat (length bs).
Proof.
  induction bs as [|b bs IH]; [simpl; lia|].
  cbn [le_value length]. rewrite Nat2Z.inj_succ, Z.pow_succ_r by lia.
  pose proof (byte_val_bound b). lia.
Qed.

(** Bit [i] of the little-endian value is bit [i mod 8] of byte [i / 8]. *)
Lemma le_value_testbit bs i :
  0 ≤ i →
  Z.testbit (le_value bs) i =
  match bs !! Z.to_nat (i / 8) with
  | Some b => Z.testbit (byte_val b) (i mod 8)
  | None => false
  end.
Proof.
  revert i. induction bs as [|b bs IH]; intros i Hi.
  { cbn. apply Z.testbit_0_l. }
  cbn [le_value]. pose proof (byte_val_bound b) as Hb.
  destruct (Z.lt_ge_cases i 8) as [Hlt|Hge].
  - rewrite (Z.div_small i 8), (Z.mod_small i 8) by lia. simpl.
    assert ((byte_val b + 256 * le_value bs) mod 2 ^ 8 = byte_val b) as Hmod.
    { change (2 ^ 8) with 256.
      rewrite (Z.mul_comm 256), Z.mod_add by lia. apply Z.mod_small. lia. }
    rewrite <- (Z.mod_pow2_bits_low (byte_val b + 256 * le_value bs) 8 i) by lia.
    by rewrite Hmod.
  - assert ((byte_val b + 256 * le_value bs) / 2 ^ 8 = le_value bs) as Hdiv.
    { change (2 ^ 8) with 256.
      rewrite (Z.mul_comm 256), Z.div_add by lia.
      rewrite (Z.div_small (byte_val b)) by lia. lia. }
    replace (Z.testbit (byte_val b + 256 * le_value bs) i)
      with (Z.testbit ((byte_val b + 256 * le_value bs) / 2 ^ 8) (i - 8)).
    2:{ rewrite Z.div_pow2_bits by lia. f_equal. lia. }
    rewrite Hdiv, IH by lia.
    assert (i / 8 = (i - 8) / 8 + 1) as ->.
    { replace i with ((i - 8) + 1 * 8) at 1 by lia.
      rewrite Z.div_add by lia. lia. }
    assert (i mod 8 = (i - 8) mod 8) as ->.
    { replace i with ((i - 8) + 1 * 8) at 1 by lia.
      rewrite Z.mod_add by lia. done. }
    rewrite Z2Nat.inj_add by (try apply Z.div_pos; lia).
    change (Z.to_nat 1) with 1%nat. rewrite Nat.add_1_r. done.
Qed.

Lemma land_bit a k :
  0 ≤ k → (0 <? Z.land a (Z.shiftl 1 k)) = Z.testbit a k.
Proof.
  intros Hk. rewrite Z.shiftl_1_l.
  assert (Z.land a (2 ^ k) = if Z.testbit a k then 2 ^ k else 0) as ->.
  { apply Z.bits_inj'. intros n Hn. rewrite Z.land_spec, Z.pow2_bits_eqb by lia.
    destruct (Z.eqb_spec k n) as [->|Hne].
    - destruct (Z.testbit a n) eqn:Ha; cbn.
      + rewrite Z.pow2_bits_eqb by lia. by rewrite Z.eqb_refl.
      + by rewrite Z.testbit_0_l.
    - rewrite andb_false_r. destruct (Z.testbit a k).
      + rewrite Z.pow2_bits_eqb by lia. symmetry. by apply Z.eqb_neq.
      + by rewrite Z.testbit_0_l. }
  destruct (Z.testbit a k); [|done].
  apply Z.ltb_lt. apply Z.pow_pos_nonneg; lia.
Qed.

Lemma isBitSet_Ret bm i :
  0 ≤ i < 8 * Z.of_nat (length bm) →
  isBitSet bm i = Ret (Z.testbit (le_value bm) i).
Proof.
  intros Hi. unfold isBitSet, index.
  rewrite Z.shiftr_div_pow2 by lia. change (2 ^ 3) with 8.
  assert (0 ≤ i / 8 < Z.of_nat (length bm)) as Hq.
  { split; [apply Z.div_pos; lia | apply Z.div_lt_upper_bound; lia]. }
  assert ((i / 8 <? 0) = false) as -> by (apply Z.ltb_ge; lia).
  rewrite le_value_testbit by lia.
  destruct (bm !! Z.to_nat (i / 8)) as [b|] eqn:Hb.
  - cbn. change 7 with (Z.ones 3). rewrite Z.land_ones by lia.
    change (2 ^ 3) with 8. rewrite land_bit; [done|].
    apply Z.mod_pos_bound. lia.
  - apply lookup_ge_None in Hb. lia.
Qed.

Lemma isBitSet_Panic bm i :
  i < 0 ∨ 8 * Z.of_nat (length bm) ≤ i → isBitSet bm i = Panic.
Proof.
  intros Hi. unfold isBitSet, index.
  rewrite Z.shiftr_div_pow2 by lia. change (2 ^ 3) with 8.
  destruct (i / 8 <? 0) eqn:Hneg; [done|]. apply Z.ltb_ge in Hneg.
  destruct Hi as [Hi|Hi].
  - exfalso. assert (i / 8 < 0) by (apply Z.div_lt_upper_bound; lia). lia.
  - assert (Z.of_nat (length bm) ≤ i / 8) by (apply Z.div_le_lower_bound; lia).
    destruct (bm !! Z.to_nat (i / 8)) eqn:Hb; [|done].
    apply lookup_lt_Some in Hb. lia.
Qed.

(** X9: [isBitSet] reads the bitmap least significant bit first: inside the
    bitmap, bit [i] is bit [i] of the bitmap's little-endian value; a
    negative index or one past the last byte panics. *)
Theorem isBitSet_spec bm i :
  (0 ≤ i < 8 * Z.of_nat (length bm) →
   isBitSet bm i = Ret (Z.testbit (le_value bm) i))
  ∧ (i < 0 ∨ 8 * Z.of_nat (length bm) ≤ i → isBitSet bm i = Panic).
Proof. split; [apply isBitSet_Ret | apply isBitSet_Panic]. Qed.

(** ** decodeRows *)

Lemma countPresent_popcount bm k i c c' :
  0 ≤ i →
  countPresent bm k i c = Ret c' →
  c' = c + Z.of_nat (length (filter (λ j, Z.testbit (le_value bm) j = true)
                                    (seqZ i (Z.of_nat k))))
  ∧ ((0 < k)%nat → i + Z.of_nat k ≤ 8 * Z.of_nat (length bm)).
Proof.
  revert i c. induction k as [|k IH]; intros i c Hi H.
  { cbn in H. injection H as <-. rewrite seqZ_nil by lia. cbn. lia. }
  cbn [countPresent] in H. bind_inv H.
  destruct (Z.le_gt_cases (8 * Z.of_nat (length bm)) i) as [Hout|Hin].
  { rewrite isBitSet_Panic in Hstep by lia. discriminate. }
  rewrite isBitSet_Ret in Hstep by lia. injection Hstep as <-.
  apply IH in H as [-> Hlen]; [|lia].
  rewrite Nat2Z.inj_succ, (seqZ_cons i) by lia.
  rewrite Z.pred_succ, filter_cons. change (Z.succ i) with (i + 1). split.
  - destruct (decide (Z.testbit (le_value bm) i = true)) as [->|Hf].
    + cbn [length]. lia.
    + apply not_true_is_false in Hf. rewrite Hf. lia.
  - intros _. destruct k; [lia|]. specialize (Hlen ltac:(lia)). lia.
Qed.

(** X10: the first loop of [decodeRows] counts the bits set among the first
    [n] bits of the bitmap (its popcount), so the count is between 0 and
    [n]; it returns only if the bitmap has at least [n] bits. *)
Theorem countPresent_spec bm n c :
  countPresent bm n 0 0 = Ret c →
  c = popcount bm n ∧ 0 ≤ c ≤ Z.of_nat n
  ∧ Z.of_nat n ≤ 8 * Z.of_nat (length bm).
Proof.
  intros H. apply countPresent_popcount in H as [-> Hlen]; [|lia].
  unfold popcount. split; [lia|]. split; [|destruct n; lia].
  pose proof (length_filter (λ j, Z.testbit (le_value bm) j = true)
                (seqZ 0 (Z.of_nat n))) as Hle.
  rewrite length_seqZ in Hle. lia.
Qed.

Lemma decodeColumns_frame C td bm nullBM k i nullIdx row buf row' buf' :
  0 ≤ i →
  decodeColumns C td bm nullBM k i nullIdx row buf = Ret (row', buf') →
  length row' = length row
  ∧ ∀ j, 0 ≤ j → (j < i ∨ isBitSet bm j = Ret false) →
      row' !! Z.to_nat j = row !! Z.to_nat j.
Proof.
  revert i nullIdx row buf. induction k as [|k IH]; intros i nullIdx row buf Hi H.
  { cbn in H. injection H as <- <-. done. }
  cbn [decodeColumns] in H. bind_inv H. destruct a as [|]; cbn in H.
  - bind_inv H.
    destruct (0 <? Z.land (Z.shiftr (byte_val a) (Z.rem nullIdx 8)) 1).
    + apply IH in H as [Hlen Hsame]; [|lia].
      rewrite length_insert in Hlen. split; [done|].
      intros j Hj Hcase. rewrite Hsame; [|done|destruct Hcase; [left; lia | by right]].
      apply list_lookup_insert_ne. intros Heq.
      assert (j = i) as -> by lia. destruct Hcase; [lia | congruence].
    + bind_inv H. bind_inv H. bind_inv H. destruct a2 as [v buf1].
      apply IH in H as [Hlen Hsame]; [|lia].
      rewrite length_insert in Hlen. split; [done|].
      intros j Hj Hcase. rewrite Hsame; [|done|destruct Hcase; [left; lia | by right]].
      apply list_lookup_insert_ne. intros Heq.
      assert (j = i) as -> by lia. destruct Hcase; [lia | congruence].
  - apply IH in H as [Hlen Hsame]; [|lia]. split; [done|].
    intros j Hj Hcase. apply Hsame; [done|].
    destruct Hcase; [left; lia | by right].
Qed.

Lemma decodeRows_Ret C cc buf td bm row buf' :
  decodeRows C cc buf td bm = Ret (row, buf') →
  cc < 2 ^ 63
  ∧ length row = Z.to_nat cc
  ∧ ∀ j, 0 ≤ j < cc → isBitSet bm j = Ret false →
      row !! Z.to_nat j = Some VNil.
Proof.
  unfold decodeRows. intros H. bind_inv H. bind_inv H. destruct a0 as [nullBM buf1].
  bind_inv H. unfold makeRow in Hstep1.
  destruct (cc <? 2 ^ 63) eqn:Hcc; [|discriminate]. injection Hstep1 as <-.
  apply Z.ltb_lt in Hcc.
  apply decodeColumns_frame in H as [Hlen Hsame]; [|lia].
  rewrite length_replicate in Hlen. split; [done|]. split; [done|].
  intros j Hj Hbit. rewrite Hsame; [|lia|by right].
  apply lookup_replicate_2. lia.
Qed.

(** X11: in a decoded row, the slot of every column that the present
    bitmap leaves out is nil, and the row has as many slots as the event
    has columns. *)
Theorem decodeRows_absent_columns_nil C cc buf td bm row buf' :
  decodeRows C cc buf td bm = Ret (row, buf') →
  length row = Z.to_nat cc
  ∧ ∀ j, 0 ≤ j < cc → Z.testbit (le_value bm) j = false →
      row !! Z.to_nat j = Some VNil.
Proof.
  intros H. pose proof (decodeRows_Ret _ _ _ _ _ _ _ H) as (Hcc & Hlen & Hnil).
  split; [done|]. intros j Hj Hbit. apply Hnil; [done|].
  unfold decodeRows in H. bind_inv H.
  apply countPresent_popcount in Hstep as [_ Hbm]; [|lia].
  unfold to_int, wrap in Hbm.
  rewrite <- Hbit. apply isBitSet_Ret.
  rewrite Z.mod_small in Hbm by lia.
  assert ((cc <? 2 ^ 63) = true) as Hlt by (apply Z.ltb_lt; lia).
  rewrite Hlt in Hbm. lia.
Qed.

(** ** Decode *)

Lemma decodeLoop_rows C ty cc td bm1 bm2 fuel rows buf rows' :
  decodeLoop C ty cc td bm1 bm2 fuel rows buf = Ret rows' →
  ∃ more, rows' = rows ++ more ∧ more ≠ [] ∧ cc < 2 ^ 63
    ∧ (∀ row, row ∈ more → length row = Z.to_nat cc)
    ∧ (RowsEventHasSecondBitmap ty = true → Nat.Even (length more)).
Proof.
  revert rows buf. induction fuel as [|fuel IH]; intros rows buf H; [discriminate|].
  cbn [decodeLoop] in H. bind_inv H. destruct a as [row buf1].
  apply decodeRows_Ret in Hstep as (Hcc & Hlen & _).
  cbn -[More decodeLoop] in H. bind_inv H. destruct a as [rows2 buf2].
  assert (∃ round, rows2 = rows ++ round ∧ round ≠ []
            ∧ (∀ r, r ∈ round → length r = Z.to_nat cc)
            ∧ (RowsEventHasSecondBitmap ty = true → length round = 2%nat))
    as (round & -> & Hne & Hall & Hpair).
  { destruct (RowsEventHasSecondBitmap ty).
    - bind_inv Hstep. destruct a as [row2 buf3]. injection Hstep as <- <-.
      apply decodeRows_Ret in Hstep0 as (_ & Hlen2 & _).
      exists [row; row2]. rewrite <- app_assoc. repeat split; try done.
      intros r Hr. apply elem_of_cons in Hr as [->|Hr]; [done|].
      apply list_elem_of_singleton in Hr as ->. done.
    - injection Hstep as <- <-. exists [row]. repeat split; try done.
      intros r Hr. apply list_elem_of_singleton in Hr as ->. done. }
  cbn -[More decodeLoop] in H. destruct (More buf2); cbn -[decodeLoop] in H.
  - apply IH in H as (more & -> & _ & _ & Hall' & Heven).
    exists (round ++ more). rewrite app_assoc. repeat split; try done.
    + intros Hnil. apply app_eq_nil in Hnil as [? _]. done.
    + intros r Hr. apply elem_of_app in Hr as [Hr|Hr]; auto.
    + intros Hty. rewrite length_app, (Hpair Hty).
      destruct (Heven Hty) as [n Hn]. exists (S n). lia.
  - injection H as <-. exists round. repeat split; try done.
    intros Hty. exists 1%nat. rewrite (Hpair Hty). done.
Qed.

(** X12: an event that [Decode] returns has at least one row, every row
    has [ColumnCount] slots, and an update event with two bitmaps has an
    even number of rows (before and after images). *)
Theorem Decode_rows_shape B C fuel ty connBuff fd td e :
  Decode B C fuel ty connBuff fd td = Ret (Ok e) →
  Rows e ≠ []
  ∧ (∀ row, row ∈ Rows e → length row = Z.to_nat (ColumnCount e))
  ∧ (RowsEventHasSecondBitmap ty = true → Nat.Even (length (Rows e))).
Proof.
  unfold Decode. intros H.
  destruct (decodeBody B C fuel ty connBuff fd td) as [e'| |] eqn:Hbody;
    try discriminate.
  injection H as ->. unfold decodeBody in Hbody.
  bind_inv Hbody. destruct a as [tableID buf1].
  bind_inv Hbody. destruct a as [flags buf2].
  bind_inv Hbody. destruct a as [extra buf3].
  bind_inv Hbody. destruct a as [cc buf4].
  bind_inv Hbody. destruct a as [bm1 buf5].
  bind_inv Hbody. destruct a as [bm2 buf6].
  bind_inv Hbody. injection Hbody as <-. cbn.
  apply decodeLoop_rows in Hstep5 as (more & -> & Hne & _ & Hall & Heven).
  done.
Qed.

(** ** Unsupported columns in a decoded row *)

(** The NULL test of [decodeRows] reads bit [n] of the little-endian value
    of the null bitmap. *)
Lemma null_bit bs n a :
  0 ≤ n →
  index bs (Z.quot n 8) = Ret a →
  (0 <? Z.land (Z.shiftr (byte_val a) (Z.rem n 8)) 1)
  = Z.testbit (le_value bs) n.
Proof.
  intros Hn H. rewrite Z.quot_div_nonneg in H by lia.
  rewrite Z.rem_mod_nonneg by lia.
  unfold index in H. destruct (n / 8 <? 0); [discriminate|].
  destruct (bs !! Z.to_nat (n / 8)) as [b|] eqn:Hb; [|discriminate].
  injection H as ->. rewrite le_value_testbit, Hb by done.
  pose proof (Z.mod_pos_bound n 8 ltac:(lia)) as Hm.
  change (Z.land (Z.shiftr (byte_val a) (n mod 8)) 1)
    with (Z.land (Z.shiftr (byte_val a) (n mod 8)) (Z.ones 1)).
  rewrite Z.land_ones by lia. change (2 ^ 1) with 2.
  rewrite <- Z.bit0_mod, Z.shiftr_spec by lia. rewrite Z.add_0_l.
  by destruct (Z.testbit (byte_val a) (n mod 8)).
Qed.

(** The second loop of [decodeRows] leaves the sentinel in the slot of a
    present column that is not NULL and has an unsupported type; the null
    bit of column [i] is the bit whose index is the number of present
    columns before [i]. *)
Lemma decodeColumns_unsupported C td bm nullBM k i0 nullIdx row buf row' buf'
    i ct meta :
  0 ≤ i0 → 0 ≤ nullIdx →
  decodeColumns C td bm nullBM k i0 nullIdx row buf = Ret (row', buf') →
  i0 ≤ i < i0 + Z.of_nat k →
  (Z.to_nat i < length row)%nat →
  Z.testbit (le_value bm) i = true →
  Z.testbit (le_value nullBM)
    (nullIdx + Z.of_nat (length (filter (λ j, Z.testbit (le_value bm) j = true)
                                        (seqZ i0 (i - i0))))) = false →
  index (ColumnTypes td) i = Ret ct →
  index (ColumnMeta td) i = Ret meta →
  unsupportedType (stringMeta (byte_val ct) meta).1 →
  ∃ cur, row' !! Z.to_nat i
         = Some (VUnsupportedType (stringMeta (byte_val ct) meta).1 meta cur).
Proof.
  intros Hi0 Hn H Hi Hlen Hbit Hnull Hct Hmeta Hun.
  revert i0 nullIdx row buf Hi0 Hn H Hi Hlen Hnull.
  induction k as [|k IH]; intros i0 nullIdx row buf Hi0 Hn H Hi Hlen Hnull;
    [lia|].
  cbn [decodeColumns] in H. apply bind_Ret in H as [set [Hset H]].
  destruct (Z.le_gt_cases (8 * Z.of_nat (length bm)) i0) as [Hout|Hin].
  { rewrite isBitSet_Panic in Hset by lia. discriminate. }
  rewrite isBitSet_Ret in Hset by lia. injection Hset as <-.
  destruct (decide (i0 = i)) as [->|Hne].
  - rewrite Hbit in H. cbn [negb] in H.
    rewrite Z.sub_diag, seqZ_nil in Hnull by lia. cbn in Hnull.
    rewrite Z.add_0_r in Hnull.
    apply bind_Ret in H as [nb [Hnb H]].
    rewrite (null_bit _ _ _ Hn Hnb), Hnull in H.
    rewrite Hct, Hmeta in H. cbn [mbind outcome_bind] in H.
    rewrite (decodeValue_unsupported C buf _ _ Hun) in H.
    cbn [mbind outcome_bind] in H.
    apply decodeColumns_frame in H as [_ Hsame]; [|lia].
    eexists. rewrite Hsame; [|lia|left; lia].
    by apply list_lookup_insert_eq.
  - assert (seqZ i0 (i - i0) = i0 :: seqZ (i0 + 1) (i - (i0 + 1))) as Hseq.
    { rewrite (seqZ_cons i0) by lia. f_equal. f_equal; lia. }
    rewrite Hseq, filter_cons in Hnull.
    destruct (Z.testbit (le_value bm) i0) eqn:Hb0.
    + cbn [negb] in H. apply bind_Ret in H as [nb [Hnb H]].
      rewrite decide_True in Hnull by done. cbn [length] in Hnull.
      rewrite Nat2Z.inj_succ in Hnull.
      destruct (0 <? Z.land (Z.shiftr (byte_val nb) (Z.rem nullIdx 8)) 1).
      * eapply (IH (i0 + 1) (nullIdx + 1)) in H; try done; try lia.
        -- by rewrite length_insert.
        -- rewrite <- Hnull. f_equal. lia.
      * apply bind_Ret in H as [ct0 [_ H]].
        apply bind_Ret in H as [meta0 [_ H]].
        apply bind_Ret in H as [[v buf1] [_ H]].
        eapply (IH (i0 + 1) (nullIdx + 1)) in H; try done; try lia.
        -- by rewrite length_insert.
        -- rewrite <- Hnull. f_equal. lia.
    + cbn [negb] in H. rewrite decide_False in Hnull by done.
      eapply (IH (i0 + 1) nullIdx) in H; try done; lia.
Qed.

(** Every row the loop of [Decode] adds is a row that [decodeRows] returned
    for the first bitmap, or for the second one in an event that has it. *)
Lemma decodeLoop_rows_from C ty cc td bm1 bm2 fuel rows buf rows' row :
  decodeLoop C ty cc td bm1 bm2 fuel rows buf = Ret rows' →
  row ∈ rows' →
  row ∈ rows
  ∨ ∃ bm b b',
      (bm = bm1 ∨ RowsEventHasSecondBitmap ty = true ∧ bm = bm2)
      ∧ decodeRows C cc b td bm = Ret (row, b').
Proof.
  revert rows buf. induction fuel as [|fuel IH]; intros rows buf H Hin;
    [discriminate|].
  cbn [decodeLoop] in H. apply bind_Ret in H as [[row1 buf1] [Hrow1 H]].
  cbn -[More decodeLoop] in H. apply bind_Ret in H as [[rows2 buf2] [Hround H]].
  assert (∀ x, x ∈ rows2 →
            x ∈ rows
            ∨ ∃ bm b b',
                (bm = bm1 ∨ RowsEventHasSecondBitmap ty = true ∧ bm = bm2)
                ∧ decodeRows C cc b td bm = Ret (x, b')) as Hround'.
  { destruct (RowsEventHasSecondBitmap ty) eqn:Hty.
    - apply bind_Ret in Hround as [[row2 buf3] [Hrow2 Hround]].
      injection Hround as <- <-. intros x Hx.
      apply elem_of_app in Hx as [Hx|Hx].
      + apply elem_of_app in Hx as [Hx|Hx]; [by left|].
        apply list_elem_of_singleton in Hx as ->. right. eauto 10.
      + apply list_elem_of_singleton in Hx as ->. right. eauto 10.
    - injection Hround as <- <-. intros x Hx.
      apply elem_of_app in Hx as [Hx|Hx]; [by left|].
      apply list_elem_of_singleton in Hx as ->. right. eauto 10. }
  cbn -[More decodeLoop] in H. destruct (More buf2); cbn -[decodeLoop] in H.
  - destruct (IH _ _ H Hin) as [Hold|Hnew]; [by apply Hround' | by right].
  - injection H as <-. by apply Hround'.
Qed.

(** C10, as the code has it: for a column whose type (after the rewrite of
    a String column's meta) is old Decimal, NewDate or a code [decodeValue]
    has no case for, [decodeValue] returns the [UnsupportedType] sentinel
    and reads no byte; the loop of [decodeRows] stores the sentinel in the
    column's slot and goes on with the next column at the same cursor; in
    every row that [decodeRows] returns, the slot of such a column, when it
    is present and not NULL, holds the sentinel; and every row of an event
    that [Decode] returns is such a row. *)
Theorem unsupported_column_is_sentinel C td i ct meta :
  index (ColumnTypes td) i = Ret ct →
  index (ColumnMeta td) i = Ret meta →
  unsupportedType (stringMeta (byte_val ct) meta).1 →
  let sentinel := VUnsupportedType (stringMeta (byte_val ct) meta).1 meta in
  (∀ buf, decodeValue C buf (byte_val ct) meta = Ret (sentinel (Cur buf), buf))
  ∧ (∀ bm nullBM k nullIdx row buf nb,
       isBitSet bm i = Ret true →
       index nullBM (Z.quot nullIdx 8) = Ret nb →
       Z.land (Z.shiftr (byte_val nb) (Z.rem nullIdx 8)) 1 = 0 →
       decodeColumns C td bm nullBM (S k) i nullIdx row buf =
       decodeColumns C td bm nullBM k (i + 1) (nullIdx + 1)
         (<[Z.to_nat i := sentinel (Cur buf)]> row) buf)
  ∧ (∀ cc buf bm nullBM buf1 row buf',
       decodeRows C cc buf td bm = Ret (row, buf') →
       ReadStringVarLen (Z.quot (popcount bm (Z.to_nat cc) + 7) 8) buf
         = Ret (nullBM, buf1) →
       i < cc →
       Z.testbit (le_value bm) i = true →
       Z.testbit (le_value nullBM) (popcount bm (Z.to_nat i)) = false →
       ∃ cur, row !! Z.to_nat i = Some (sentinel cur))
  ∧ (∀ B fuel ty connBuff fd e row,
       Decode B C fuel ty connBuff fd td = Ret (Ok e) →
       row ∈ Rows e →
       ∃ bm buf buf',
         (bm = ColumnBitmap1 e
          ∨ RowsEventHasSecondBitmap ty = true ∧ bm = ColumnBitmap2 e)
         ∧ decodeRows C (ColumnCount e) buf td bm = Ret (row, buf')
         ∧ ∀ nullBM buf1,
             ReadStringVarLen
               (Z.quot (popcount bm (Z.to_nat (ColumnCount e)) + 7) 8) buf
               = Ret (nullBM, buf1) →
             i < ColumnCount e →
             Z.testbit (le_value bm) i = true →
             Z.testbit (le_value nullBM) (popcount bm (Z.to_nat i)) = false →
             ∃ cur, row !! Z.to_nat i = Some (sentinel cur)).
Proof.
  intros Hct Hmeta Hun sentinel.
  assert (0 ≤ i) as Hi0.
  { unfold index in Hct. destruct (i <? 0) eqn:Hneg; [discriminate|].
    by apply Z.ltb_ge in Hneg. }
  assert (∀ cc buf bm nullBM buf1 row buf',
            decodeRows C cc buf td bm = Ret (row, buf') →
            ReadStringVarLen (Z.quot (popcount bm (Z.to_nat cc) + 7) 8) buf
              = Ret (nullBM, buf1) →
            i < cc →
            Z.testbit (le_value bm) i = true →
            Z.testbit (le_value nullBM) (popcount bm (Z.to_nat i)) = false →
            ∃ cur, row !! Z.to_nat i = Some (sentinel cur)) as Hslot;
    [|split; [|split; [|split; [exact Hslot|]]]].
  - intros cc buf bm nullBM buf1 row buf' H Hbm Hi Hbit Hnull.
    pose proof (decodeRows_Ret _ _ _ _ _ _ _ H) as (Hcc & Hlen & _).
    unfold decodeRows in H.
    assert (to_int cc = cc) as Hint.
    { unfold to_int, wrap. rewrite Z.mod_small by lia.
      by assert ((cc <? 2 ^ 63) = true) as -> by (apply Z.ltb_lt; lia). }
    rewrite Hint in H.
    apply bind_Ret in H as [count [Hcount H]].
    apply countPresent_popcount in Hcount as [Hcount _]; [|lia].
    rewrite Z.add_0_l in Hcount. fold (popcount bm (Z.to_nat cc)) in Hcount.
    subst count. rewrite Hbm in H. cbn [mbind outcome_bind] in H.
    apply bind_Ret in H as [row0 [Hrow0 H]].
    unfold makeRow in Hrow0.
    destruct (cc <? 2 ^ 63); [|discriminate]. injection Hrow0 as <-.
    eapply decodeColumns_unsupported in H; try done; try lia.
    + rewrite length_replicate. lia.
    + rewrite Z.add_0_l, Z.sub_0_r. unfold popcount in Hnull.
      by rewrite Z2Nat.id in Hnull by lia.
  - intros buf. by apply decodeValue_unsupported.
  - intros bm nullBM k nullIdx row buf nb Hset Hnb Hnull.
    cbn [decodeColumns]. rewrite Hset. cbn. rewrite Hnb. cbn. rewrite Hnull.
    cbn. rewrite Hct. cbn. rewrite Hmeta. cbn.
    rewrite (decodeValue_unsupported C buf _ _ Hun). reflexivity.
  - intros B fuel ty connBuff fd e row H Hin. unfold Decode in H.
    destruct (decodeBody B C fuel ty connBuff fd td) as [e'| |] eqn:Hbody;
      try discriminate.
    injection H as ->. unfold decodeBody in Hbody.
    apply bind_Ret in Hbody as [[tableID b1] [_ Hbody]].
    apply bind_Ret in Hbody as [[flags b2] [_ Hbody]].
    apply bind_Ret in Hbody as [[extra b3] [_ Hbody]].
    apply bind_Ret in Hbody as [[cc b4] [_ Hbody]].
    apply bind_Ret in Hbody as [[bm1 b5] [_ Hbody]].
    apply bind_Ret in Hbody as [[bm2 b6] [_ Hbody]].
    apply bind_Ret in Hbody as [rows [Hloop Hbody]].
    injection Hbody as <-. cbn in Hin |- *.
    destruct (decodeLoop_rows_from _ _ _ _ _ _ _ _ _ _ _ Hloop Hin)
      as [Hnil|(bm & b & b' & Hbm & Hdec)]; [by apply elem_of_nil in Hnil|].
    exists bm, b, b'. split; [done|]. split; [done|].
    intros nullBM buf1. by apply (Hslot _ _ _ _ _ _ _ Hdec).
Qed.

Lemma unsupported_column_is_sentinel_witness :
  ∃ row buf' cur,
    decodeRows rawCodec 3 {| data := sampleRows; pos := 10 |} sampleTable [x07]
      = Ret (row, buf')
    ∧ row !! 1%nat = Some (VUnsupportedType ColumnTypeDecimal 0 cur).
Proof.
  destruct (unsupported_column_is_sentinel rawCodec sampleTable 1 x00 0)
    as (_ & _ & Hrow & _).
  - vm_compute. reflexivity.
  - vm_compute. reflexivity.
  - left. vm_compute. reflexivity.
  - edestruct (Hrow 3 {| data := sampleRows; pos := 10 |} [x07])
      as [cur Hcur].
    + vm_compute. reflexivity.
    + vm_compute. reflexivity.
    + lia.
    + vm_compute. reflexivity.
    + vm_compute. reflexivity.
    + eexists _, _, cur. split; [vm_compute; reflexivity|]. exact Hcur.
Defined.

(** C10 as stated fails: a row whose old Decimal column has four bytes on
    the wire. [decodeValue] does not skip them, the Varchar behind it takes
    the byte 0x20 for its length and reads past the end of the buffer, and
    [Decode] returns the recovered error, for every number of rounds. With
    a Long in place of the Decimal the same bytes decode. *)
Lemma unsupported_column_fails_Decode :
  (∀ fuel,
     Decode specBinlog rawCodec (S fuel) EventTypeWriteRowsV1 decimalRows
       zeroFormat sampleTable = Ret (Err ErrRecovered))
  ∧ Decode specBinlog rawCodec 1 EventTypeWriteRowsV1 decimalRows zeroFormat
      longTable
    = Ret (Ok {| RowsEventType := EventTypeWriteRowsV1; TableID := 5;
                 Flags := 1; ExtraData := []; ColumnCount := 3;
                 ColumnBitmap1 := [x07]; ColumnBitmap2 := [];
                 Rows := [[VUint 32 1; VUint 32 0x20202020;
                           VString (list_byte_of_string "alice")]] |}).
Proof.
  split; [|vm_compute; reflexivity].
  intros fuel. vm_compute. reflexivity.
Qed.

Lemma ReadUint_Panic n b :
  Z.of_nat (length (data b)) < Z.of_nat (pos b) + n → ReadUint n b = Panic.
Proof.
  intros H. unfold ReadUint, Read.
  assert ((Z.of_nat (pos b) + n <=? Z.of_nat (length (data b))) = false) as ->
    by (apply Z.leb_gt; lia).
  by rewrite andb_false_r.
Qed.

(** X13: a buffer of fewer than 6 bytes cannot hold a table id and the
    flags: [Decode] returns the recovered error on it, for every event type,
    table id size and table. *)
Theorem Decode_short_buffer B C fuel ty connBuff fd td :
  (length connBuff < 6)%nat →
  Decode B C fuel ty connBuff fd td = Ret (Err ErrRecovered).
Proof.
  intros Hlen. apply Decode_recovers. unfold decodeBody.
  destruct (TableIDSize B fd ty =? 6).
  - unfold ReadUint48. rewrite ReadUint_Panic; [done | cbn; lia].
  - unfold ReadUint32, ReadUint at 1, Read.
    destruct ((0 <=? 4) && (Z.of_nat (pos (New connBuff)) + 4
                            <=? Z.of_nat (length (data (New connBuff)))));
      [|done].
    cbn. unfold ReadUint16. rewrite ReadUint_Panic; [done | cbn; lia].
Qed.

Lemma Read_length n b bs b' :
  Read n b = Ret (bs, b') →
  Z.of_nat (length bs) = n ∧ data b' = data b
  ∧ n ≤ Z.of_nat (length (data b)).
Proof.
  intros H. apply Read_Ret in H as (Hn & Hlen & -> & ->). cbn.
  unfold Cur. rewrite length_take, length_drop. repeat split; try done; lia.
Qed.

Lemma ReadUint_data n b v b' :
  ReadUint n b = Ret (v, b') → data b' = data b ∧ 0 ≤ v.
Proof.
  intros H. apply ReadUint_Ret in H as (_ & _ & -> & ->).
  split; [done | apply le_value_nonneg].
Qed.

Lemma ReadUintLenEnc_data b x b' :
  ReadUintLenEnc b = Ret (x, b') → data b' = data b ∧ 0 ≤ x.1.1.
Proof.
  unfold ReadUintLenEnc, ReadUint8, ReadUint16, ReadUint24, ReadUint64.
  intros H. bind_inv H. destruct a as [n b1].
  apply ReadUint_data in Hstep as [Hd Hn].
  repeat match type of H with
         | (if ?c then _ else _) = _ => destruct c
         end;
    try (bind_inv H; destruct a as [v b2]; apply ReadUint_data in Hstep as [Hd2 Hv]);
    injection H as <- <-; cbn; split; congruence || lia.
Qed.

Lemma quot8_nonneg x : 0 ≤ Z.quot x 8 → -8 < x.
Proof.
  intros H. destruct (Z.le_gt_cases 0 x) as [?|Hneg]; [lia|].
  pose proof (Z.quot_rem' x 8) as Hqr.
  pose proof (Z.rem_bound_pos_neg x 8 ltac:(lia) ltac:(lia)) as Hr. lia.
Qed.

(** X14: in an event that [Decode] returns, the column count is at most 8
    times the length of the buffer, and each present bitmap has exactly
    [(ColumnCount + 7) / 8] bytes; the second bitmap is empty unless the
    event is an update with two bitmaps. *)
Theorem Decode_bitmaps B C fuel ty connBuff fd td e :
  Decode B C fuel ty connBuff fd td = Ret (Ok e) →
  0 ≤ ColumnCount e ≤ 8 * Z.of_nat (length connBuff)
  ∧ Z.of_nat (length (ColumnBitmap1 e)) = (ColumnCount e + 7) / 8
  ∧ Z.of_nat (length (ColumnBitmap2 e)) =
    (if RowsEventHasSecondBitmap ty then (ColumnCount e + 7) / 8 else 0).
Proof.
  unfold Decode. intros H.
  destruct (decodeBody B C fuel ty connBuff fd td) as [e'| |] eqn:Hbody;
    try discriminate.
  injection H as ->. unfold decodeBody in Hbody.
  bind_inv Hbody. destruct a as [tableID buf1].
  bind_inv Hbody. destruct a as [flags buf2].
  bind_inv Hbody. destruct a as [extra buf3].
  bind_inv Hbody. destruct a as [cc buf4].
  bind_inv Hbody. destruct a as [bm1 buf5].
  bind_inv Hbody. destruct a as [bm2 buf6].
  bind_inv Hbody. injection Hbody as <-. cbn.
  apply decodeLoop_rows in Hstep5 as (_ & _ & _ & Hcc & _).
  assert (data buf1 = connBuff) as Hd1.
  { unfold ReadUint48, ReadUint32 in Hstep.
    destruct (TableIDSize B fd ty =? 6);
      apply ReadUint_data in Hstep; by destruct Hstep. }
  unfold ReadUint16 in *.
  apply ReadUint_data in Hstep0 as [Hd2 _].
  assert (data buf3 = connBuff) as Hd3.
  { destruct (RowsEventHasExtraData ty).
    - apply bind_Ret in Hstep1 as [[len b] [Hlen Hextra]].
      apply ReadUint_data in Hlen as [Hdb _].
      apply Read_length in Hextra as (_ & Hd & _). congruence.
    - injection Hstep1 as _ <-. congruence. }
  apply ReadUintLenEnc_data in Hstep2 as [Hd4 Hpos].
  unfold ReadStringVarLen in *.
  apply Read_length in Hstep3 as (Hlen1 & Hd5 & Hle1).
  assert (0 ≤ Z.quot (to_int (wrap 64 (cc.1.1 + 7))) 8) as Hq by lia.
  apply quot8_nonneg in Hq.
  assert (to_int (wrap 64 (cc.1.1 + 7)) = cc.1.1 + 7) as Hint.
  { assert (wrap 64 (cc.1.1 + 7) = cc.1.1 + 7) as Hw
      by (unfold wrap; apply Z.mod_small; lia).
    rewrite Hw in Hq |- *. unfold to_int in Hq |- *. rewrite Hw in Hq |- *.
    destruct (cc.1.1 + 7 <? 2 ^ 63) eqn:Hlt; [done|].
    apply Z.ltb_ge in Hlt. lia. }
  rewrite Hint in Hlen1, Hle1, Hstep4.
  rewrite Z.quot_div_nonneg in Hlen1, Hle1, Hstep4 by lia.
  assert (Z.of_nat (length (data buf4)) = Z.of_nat (length connBuff)) as Hsame
    by congruence.
  pose proof (Z.mul_div_le (cc.1.1 + 7) 8 ltac:(lia)) as Hdiv.
  pose proof (Z.mod_pos_bound (cc.1.1 + 7) 8 ltac:(lia)) as Hmod.
  pose proof (Z.div_mod (cc.1.1 + 7) 8 ltac:(lia)) as Hdm.
  split; [lia|]. split; [done|].
  destruct (RowsEventHasSecondBitmap ty).
  - apply Read_length in Hstep4 as (Hlen2 & _ & _). done.
  - injection Hstep4 as <- _. done.
Qed.

Lemma Read_zero b :
  (pos b ≤ length (data b))%nat → Read 0 b = Ret ([], b).
Proof.
  intros H. unfold Read.
  assert ((Z.of_nat (pos b) + 0 <=? Z.of_nat (length (data b))) = true) as ->
    by (apply Z.leb_le; lia).
  cbn. rewrite Nat.add_0_r. by destruct b.
Qed.

Lemma ReadUint_at cb (p : nat) n :
  0 ≤ n → Z.of_nat p + n ≤ Z.of_nat (length cb) →
  ReadUint n {| data := cb; pos := p |}
  = Ret (le_value (take (Z.to_nat n) (drop p cb)),
         {| data := cb; pos := p + Z.to_nat n |}).
Proof.
  intros Hn Hle. unfold ReadUint, Read, Cur. cbn.
  assert ((0 <=? n) && (Z.of_nat p + n <=? Z.of_nat (length cb)) = true) as ->.
  { apply andb_true_iff. split; apply Z.leb_le; lia. }
  done.
Qed.

Lemma decodeRows_no_column C b td :
  (pos b ≤ length (data b))%nat → decodeRows C 0 b td [] = Ret ([], b).
Proof.
  intros H. unfold decodeRows, ReadStringVarLen.
  change (Z.to_nat (to_int 0)) with 0%nat.
  cbn [countPresent mbind outcome_bind mret outcome_ret].
  change (Z.quot (0 + 7) 8) with 0. by rewrite Read_zero.
Qed.

(** X15: a rows-event that declares no column but has bytes behind the
    column count keeps the loop of [Decode] running for ever: with a 6-byte
    table id and no extra data, [Decode] returns for no amount of fuel. *)
Theorem Decode_zero_columns_diverges B C fuel ty head rest fd td :
  TableIDSize B fd ty = 6 →
  RowsEventHasExtraData ty = false →
  length head = 8%nat →
  rest ≠ [] →
  Decode B C fuel ty (head ++ x00 :: rest) fd td = OutOfFuel.
Proof.
  intros Hsize Hextra Hhead Hrest. unfold Decode, decodeBody.
  rewrite Hsize, Hextra. cbn [Z.eqb Pos.eqb].
  remember (head ++ x00 :: rest) as cb eqn:Hcb.
  assert (length cb = (9 + length rest)%nat) as Hlen.
  { rewrite Hcb, length_app. cbn [length]. lia. }
  assert (0 < length rest)%nat as Hpos by (destruct rest; [done | cbn; lia]).
  unfold ReadUint48, ReadUint16, New.
  rewrite ReadUint_at by lia. cbn [mbind outcome_bind].
  rewrite ReadUint_at by (cbn; lia). cbn [mbind outcome_bind mret outcome_ret].
  unfold ReadUintLenEnc, ReadUint8.
  rewrite ReadUint_at by (cbn; lia). cbn [mbind outcome_bind].
  assert (le_value (take (Z.to_nat 1) (drop (0 + Z.to_nat 6 + Z.to_nat 2) cb)) = 0)
    as ->.
  { rewrite Hcb. change (0 + Z.to_nat 6 + Z.to_nat 2)%nat with 8%nat.
    rewrite <- Hhead, drop_app_length. done. }
  cbn [Z.eqb mret outcome_ret mbind outcome_bind fst].
  change (Z.quot (to_int (wrap 64 (0 + 7))) 8) with 0.
  set (b9 := {| data := cb; pos := 0 + Z.to_nat 6 + Z.to_nat 2 + Z.to_nat 1 |}).
  assert (pos b9 ≤ length (data b9))%nat as Hb9 by (cbn; lia).
  assert (More b9 = true) as Hmore by (apply Nat.ltb_lt; cbn; lia).
  unfold ReadStringVarLen. rewrite Read_zero by done.
  cbn [mbind outcome_bind].
  assert ((if RowsEventHasSecondBitmap ty then Read 0 b9 else mret ([], b9))
          = Ret ([], b9)) as ->.
  { destruct (RowsEventHasSecondBitmap ty); [by rewrite Read_zero | done]. }
  cbn [mbind outcome_bind].
  rewrite (decodeLoop_no_progress _ _ _ _ _ _ _ _ _ [] []); [done | done | |].
  - by apply decodeRows_no_column.
  - intros _. by apply decodeRows_no_column.
Qed.

(** ** decodeValue: the effective type of a String column *)

Lemma forall_below_256 (P : Z → bool) :
  forallb P (seqZ 0 256) = true → ∀ t, 0 ≤ t < 256 → P t = true.
Proof.
  intros H t Ht. rewrite forallb_forall in H. apply H.
  apply list_elem_of_In, elem_of_seqZ. lia.
Qed.

Lemma lor_below a b n :
  0 ≤ n → 0 ≤ a < 2 ^ n → 0 ≤ b < 2 ^ n → 0 ≤ Z.lor a b < 2 ^ n.
Proof.
  intros Hn Ha Hb. split; [apply Z.lor_nonneg; lia|].
  destruct (Z.eq_dec (Z.lor a b) 0) as [->|Hne]; [apply Z.pow_pos_nonneg; lia|].
  assert (0 < Z.lor a b) by (pose proof (proj2 (Z.lor_nonneg a b)); lia).
  assert (0 < n) as Hpos.
  { destruct (Z.eq_dec n 0) as [->|?]; [|lia]. exfalso. apply Hne.
    assert (a = 0) as -> by (cbn in Ha; lia).
    assert (b = 0) as -> by (cbn in Hb; lia). done. }
  apply Z.log2_lt_pow2; [done|]. rewrite Z.log2_lor by lia.
  apply Z.max_lub_lt.
  - destruct (Z.eq_dec a 0) as [->|?]; [cbn; lia|]. apply Z.log2_lt_pow2; lia.
  - destruct (Z.eq_dec b 0) as [->|?]; [cbn; lia|]. apply Z.log2_lt_pow2; lia.
Qed.

(** X16: whatever its meta, a String column is decoded as a type whose
    bits 4 and 5 are both set, so never by the integer or the temporal
    decoders, whose codes are below 0x30; the length the rewrite gives is
    below 1024, and it is 256 or more only when the type byte of the meta
    had one of the two bits cleared. *)
Theorem stringMeta_bounds meta :
  0 ≤ meta < 2 ^ 16 →
  Z.land (stringMeta ColumnTypeString meta).1 0x30 = 0x30
  ∧ 0x30 ≤ (stringMeta ColumnTypeString meta).1 < 256
  ∧ 0 ≤ (stringMeta ColumnTypeString meta).2 < 1024
  ∧ (256 ≤ (stringMeta ColumnTypeString meta).2 →
     0xFF < meta ∧ Z.land (Z.shiftr meta 8) 0x30 ≠ 0x30).
Proof.
  intros Hmeta. unfold stringMeta. rewrite Z.eqb_refl.
  destruct (0xFF <? meta) eqn:Hhi;
    [|unfold ColumnTypeString; cbn; repeat split; (reflexivity || lia)].
  apply Z.ltb_lt in Hhi.
  set (t := Z.shiftr meta 8). set (lb := Z.land meta 0xFF).
  assert (0 ≤ t < 256) as Ht.
  { unfold t. rewrite Z.shiftr_div_pow2 by lia. split.
    - apply Z.div_pos; lia.
    - apply Z.div_lt_upper_bound; lia. }
  assert (0 ≤ lb < 256) as Hlb.
  { unfold lb. change 0xFF with (Z.ones 8).
    rewrite Z.land_ones by lia. apply Z.mod_pos_bound. lia. }
  rewrite !(wrap_small 8) by done.
  pose proof (land_0x30_xor_bound t (proj1 Ht)) as Hx.
  rewrite (wrap_small 16) by (rewrite Z.shiftl_mul_pow2 by lia; lia).
  pose proof (forall_below_256
    (λ t, let ct := if Z.land t 0x30 =? 0x30 then t else Z.lor t 0x30 in
          (Z.land ct 0x30 =? 0x30) && (0x30 <=? ct) && (ct <? 256))
    ltac:(vm_compute; reflexivity) t Ht) as Hty.
  cbn beta zeta in Hty.
  destruct (Z.land t 0x30 =? 0x30) eqn:Hbits; cbn [negb fst snd];
    apply andb_true_iff in Hty as [Hty H256];
    apply andb_true_iff in Hty as [Hland H48];
    apply Z.eqb_eq in Hland; apply Z.leb_le in H48; apply Z.ltb_lt in H256.
  - repeat split; try lia.
  - assert (0 ≤ Z.lor lb (Z.shiftl (Z.lxor (Z.land t 0x30) 0x30) 4) < 2 ^ 10)
      as Hlen.
    { apply lor_below; [lia | lia |].
      rewrite Z.shiftl_mul_pow2 by lia. lia. }
    apply Z.eqb_neq in Hbits. repeat split; try lia; done.
Qed.

(** ** Truncated packets *)

(** X17: a Rotate event of a format above version 1 whose payload has
    fewer than the 8 bytes of the offset makes [ReadEvent] panic. *)
Theorem ReadEvent_rotate_truncated B r connBuff header payload :
  EventHeaderDecode B connBuff (format r) = Ret (Ok header) →
  Type_ header = EventTypeRotate →
  eventBuffer B (format r) (Type_ header) connBuff = Ret payload →
  1 < Version (format r) →
  (length payload < 8)%nat →
  ReadEvent B r (Ok connBuff) = Panic.
Proof.
  intros Hhd Hty Hbuf Hv Hlen.
  rewrite (ReadEvent_rotate _ _ _ _ _ Hhd Hty Hbuf).
  unfold RotateEventDecode. apply Z.ltb_lt in Hv. rewrite Hv.
  unfold ReadUint64. rewrite ReadUint_Panic; [done | cbn; lia].
Qed.

(** X18: [PeekTableIDAndFlags] needs the table id and the two bytes of the
    flags: on a buffer that has them it returns their little-endian values,
    and on a shorter one it panics. *)
Theorem PeekTableIDAndFlags_spec B ty connBuff fd :
  let k := if TableIDSize B fd ty =? 6 then 6%nat else 4%nat in
  ((k + 2 ≤ length connBuff)%nat →
   PeekTableIDAndFlags B ty connBuff fd
   = Ret (le_value (take k connBuff), le_value (take 2 (drop k connBuff))))
  ∧ ((length connBuff < k + 2)%nat →
     PeekTableIDAndFlags B ty connBuff fd = Panic).
Proof.
  assert (∀ k : nat,
    ((k + 2 ≤ length connBuff)%nat →
     (id ← DecodeUint k connBuff; rest ← slice_from connBuff (Z.of_nat k);
      fl ← DecodeUint16 rest; mret (id, fl))
     = Ret (le_value (take k connBuff), le_value (take 2 (drop k connBuff))))
    ∧ ((length connBuff < k + 2)%nat →
       (id ← DecodeUint k connBuff; rest ← slice_from connBuff (Z.of_nat k);
        fl ← DecodeUint16 rest; mret (id, fl)) = Panic)) as Hk.
  { intros k. unfold DecodeUint16, DecodeUint, slice_from. split; intros Hlen.
    - assert ((k <=? length connBuff)%nat = true) as -> by (apply Nat.leb_le; lia).
      cbn [mbind outcome_bind].
      assert ((0 <=? Z.of_nat k) && (Z.of_nat k <=? Z.of_nat (length connBuff))
              = true) as ->.
      { apply andb_true_iff. split; apply Z.leb_le; lia. }
      cbn [mbind outcome_bind]. rewrite Nat2Z.id, length_drop.
      assert ((2 <=? length connBuff - k)%nat = true) as ->
        by (apply Nat.leb_le; lia).
      done.
    - destruct (k <=? length connBuff)%nat eqn:Hle; [|done].
      apply Nat.leb_le in Hle. cbn [mbind outcome_bind].
      assert ((0 <=? Z.of_nat k) && (Z.of_nat k <=? Z.of_nat (length connBuff))
              = true) as ->.
      { apply andb_true_iff. split; apply Z.leb_le; lia. }
      cbn [mbind outcome_bind]. rewrite Nat2Z.id, length_drop.
      assert ((2 <=? length connBuff - k)%nat = false) as ->
        by (apply Nat.leb_gt; lia).
      done. }
  unfold PeekTableIDAndFlags, DecodeUint48, DecodeUint32.
  destruct (TableIDSize B fd ty =? 6); cbn zeta.
  - apply (Hk 6%nat).
  - apply (Hk 4%nat).
Qed.

(** X19: with the CRC32 checksum on, a packet whose payload behind the
    header is shorter than the 4 bytes of the checksum makes [ReadEvent]
    panic instead of returning an error. *)
Theorem ReadEvent_short_checksum B r connBuff header :
  EventHeaderDecode B connBuff (format r) = Ret (Ok header) →
  isCRC32 (ChecksumAlgorithm_ (ServerDetails_ (format r))) = true →
  isFormatDescription (Type_ header) = false →
  0 ≤ HeaderLen B (format r) ≤ Z.of_nat (length connBuff) →
  Z.of_nat (length connBuff) < HeaderLen B (format r) + 4 →
  ReadEvent B r (Ok connBuff) = Panic.
Proof.
  intros Hhd Hcrc Hfde Hhl Hshort. unfold ReadEvent. rewrite Hhd. cbn.
  rewrite !advance_format. unfold eventBuffer, slice_from, slice_to.
  rewrite Hcrc, Hfde. cbn [negb andb].
  assert ((0 <=? HeaderLen B (format r))
          && (HeaderLen B (format r) <=? Z.of_nat (length connBuff)) = true) as ->.
  { apply andb_true_iff. split; apply Z.leb_le; lia. }
  cbn [mbind outcome_bind]. rewrite length_drop.
  assert ((0 <=? Z.of_nat (length connBuff - Z.to_nat (HeaderLen B (format r))) - 4)
          = false) as -> by (apply Z.leb_gt; lia).
  done.
Qed.

(** ** The connection *)

(** X20: the hostname a connection from [Connect] carries is always
    "localhost", whatever was configured and whatever the system's name is;
    all the same, with no hostname configured [Connect] fails when
    [os.Hostname] does. *)
Theorem Connect_hostname env dsn sc :
  (∀ conn, Connect env dsn sc = Ok conn →
     ConfHostname (conf conn) = list_byte_of_string "localhost"
     ∧ ConfServerID (conf conn) = ConfServerID sc)
  ∧ (∀ e, ConfHostname sc = [] → osHostname env = Err e →
       Connect env dsn sc = Err e).
Proof.
  split.
  - intros conn H. unfold Connect in H.
    destruct (decide (ConfHostname sc = [])); [destruct (osHostname env)|];
      try discriminate; cbn in H;
      destruct (ConfOffset sc =? 0), (openConn env), (extendConn env);
      try discriminate; injection H as <-; done.
  - intros e Hname Hos. unfold Connect. rewrite Hos.
    by destruct (decide (ConfHostname sc = [])).
Qed.

(** X21: the offset of the dump request. For a connection from [Connect],
    [StartBinlogDump] writes the configured offset, with 4 in place of 0,
    so the request never asks for offset 0; and the buffer it asks for has
    exactly the size of what it writes. *)
Theorem StartBinlogDump_offset env dsn sc conn :
  Connect env dsn sc = Ok conn →
  0 ≤ ConfOffset sc →
  ∃ offset,
    (StartBinlogDump conn).2 !! 1%nat = Some (WriteUint32 offset)
    ∧ offset = (if ConfOffset sc =? 0 then 4 else ConfOffset sc)
    ∧ 0 < offset
    ∧ (StartBinlogDump conn).2 !! 4%nat = Some (WriteStringEOF (ConfFile sc))
    ∧ (StartBinlogDump conn).1
      = foldr Z.add 0 (writeSize <$> (StartBinlogDump conn).2).
Proof.
  intros H Hpos. apply Connect_Ok in H as (Hfile & _ & Hoff).
  exists (ConfOffset (conf conn)). unfold StartBinlogDump. cbn.
  rewrite Hfile, Hoff. repeat split; try done.
  - destruct (ConfOffset sc =? 0) eqn:Hz; [lia|]. apply Z.eqb_neq in Hz. lia.
  - lia.
Qed.

Lemma notEOF_EOF : notEOF ioEOF = None.
Proof. reflexivity. Qed.

Lemma notEOF_other err : err ≠ ioEOF → notEOF err = Some err.
Proof. intros Hne. by destruct err. Qed.

(** X22: [DisableChecksum] sets the variable unless the server reports
    exactly "NONE". When the server has no BINLOG_CHECKSUM variable (the
    query, or the first [Next], ends with [io.EOF] itself), [GetVar] gives
    the empty string and no error, and the SET is issued; any other error of
    the query or of [Next], one whose text is EOF among them, is what
    [GetVar] and [DisableChecksum] return; when the value is "NONE", nothing
    is executed and the result is nil. *)
Theorem DisableChecksum_cases S :
  let show := ShowVariablesLike (list_byte_of_string "BINLOG_CHECKSUM") in
  let set := SetVariable (list_byte_of_string "@master_binlog_checksum")
                         (list_byte_of_string "NONE") in
  ((query S show = Err ioEOF
    ∨ ∃ rows, query S show = Ok rows ∧ Next rows = Err ioEOF) →
   GetVar S (list_byte_of_string "BINLOG_CHECKSUM") = Ret ([], None)
   ∧ DisableChecksum S = Ret (exec S set))
  ∧ (∀ err, err ≠ ioEOF →
       (query S show = Err err
        ∨ ∃ rows, query S show = Ok rows ∧ Next rows = Err err) →
       GetVar S (list_byte_of_string "BINLOG_CHECKSUM") = Ret ([], Some err)
       ∧ DisableChecksum S = Ret (Some err))
  ∧ (∀ cs, GetVar S (list_byte_of_string "BINLOG_CHECKSUM") = Ret (cs, None) →
       DisableChecksum S =
       Ret (if decide (cs = list_byte_of_string "NONE") then None
            else exec S set)).
Proof.
  intros show set. split; [|split].
  - intros Heof.
    assert (GetVar S (list_byte_of_string "BINLOG_CHECKSUM") = Ret ([], None))
      as Hget.
    { unfold GetVar. fold show. destruct Heof as [-> | (rows & -> & ->)];
        by rewrite notEOF_EOF. }
    split; [done|]. unfold DisableChecksum. rewrite Hget.
    cbn [mbind outcome_bind]. by destruct (decide _).
  - intros err Hne Herr.
    assert (GetVar S (list_byte_of_string "BINLOG_CHECKSUM")
            = Ret ([], Some err)) as Hget.
    { unfold GetVar. fold show. destruct Herr as [-> | (rows & -> & ->)];
        by rewrite notEOF_other. }
    split; [done|]. unfold DisableChecksum. by rewrite Hget.
  - intros cs Hget. unfold DisableChecksum. rewrite Hget.
    cbn [mbind outcome_bind].
    by destruct (decide (cs = list_byte_of_string "NONE")).
Qed.

(** ** Strings behind a length prefix *)

Lemma byte_val_byte_of_Z z : byte_val (byte_of_Z z) = z mod 256.
Proof.
  unfold byte_val, byte_of_Z.
  pose proof (Z.mod_pos_bound z 256 ltac:(lia)) as Hz.
  destruct (Byte.of_N (Z.to_N (z mod 256))) as [b|] eqn:Hb.
  - apply Byte.to_of_N in Hb. cbn. rewrite Hb. lia.
  - apply Byte.of_N_None_iff in Hb. lia.
Qed.

Lemma length_le_bytes n z : length (le_bytes n z) = n.
Proof. revert z. induction n as [|n IH]; intros z; cbn; [done | by rewrite IH]. Qed.

Lemma le_value_le_bytes n z : le_value (le_bytes n z) = z mod 256 ^ Z.of_nat n.
Proof.
  revert z. induction n as [|n IH]; intros z.
  { cbn. by rewrite Z.mod_1_r. }
  cbn [le_bytes le_value]. rewrite byte_val_byte_of_Z, IH.
  rewrite Nat2Z.inj_succ, Z.pow_succ_r by lia.
  rewrite Z.rem_mul_r by (try apply Z.pow_pos_nonneg; lia). done.
Qed.

(** X23: a Varchar or Varstring column round-trips: on a buffer that holds,
    at the cursor, the length of a string in 1 byte (meta below 256) or 2
    bytes (otherwise), little-endian, and then the string, [decodeValue]
    returns the string and moves the cursor just behind it. *)
Theorem decodeValue_varchar_roundtrip C pre s rest ct meta :
  ct = ColumnTypeVarchar ∨ ct = ColumnTypeVarstring →
  let w := if meta <? 256 then 1%nat else 2%nat in
  Z.of_nat (length s) < 256 ^ Z.of_nat w →
  let bytes := pre ++ le_bytes w (Z.of_nat (length s)) ++ s ++ rest in
  decodeValue C {| data := bytes; pos := length pre |} ct meta
  = Ret (VString s, {| data := bytes; pos := length pre + w + length s |}).
Proof.
  intros Hct w Hlen bytes.
  assert (decodeValue C {| data := bytes; pos := length pre |} ct meta
          = readString {| data := bytes; pos := length pre |} meta) as ->.
  { destruct Hct as [-> | ->]; reflexivity. }
  assert (length bytes = (length pre + w + length s + length rest)%nat) as Hbytes.
  { unfold bytes. rewrite !length_app, length_le_bytes. lia. }
  assert (ReadStringVarEnc (Z.of_nat w) {| data := bytes; pos := length pre |}
          = Ret (s, {| data := bytes; pos := length pre + w + length s |})) as Henc.
  { unfold ReadStringVarEnc. rewrite ReadUint_at by lia.
    cbn [mbind outcome_bind]. rewrite Nat2Z.id.
    assert (take w (drop (length pre) bytes) = le_bytes w (Z.of_nat (length s)))
      as ->.
    { unfold bytes. rewrite drop_app_length.
      rewrite <- (length_le_bytes w (Z.of_nat (length s))) at 1.
      by rewrite take_app_length. }
    rewrite le_value_le_bytes, Z.mod_small by lia.
    unfold Read, Cur. cbn [data pos].
    assert ((0 <=? Z.of_nat (length s))
            && (Z.of_nat (length pre + w) + Z.of_nat (length s)
                <=? Z.of_nat (length bytes)) = true) as ->.
    { apply andb_true_iff. split; apply Z.leb_le; lia. }
    rewrite Nat2Z.id. f_equal. f_equal.
    unfold bytes. rewrite <- (length_le_bytes w (Z.of_nat (length s))) at 1.
    rewrite app_assoc, <- length_app, drop_app_length. by rewrite take_app_length. }
  unfold readString, w in *.
  destruct (meta <? 256);
    [change (Z.of_nat 1) with 1 in Henc | change (Z.of_nat 2) with 2 in Henc];
    by rewrite Henc.
Qed.

Lemma decodeValue_varchar_roundtrip_witness :
  decodeValue rawCodec
    {| data := [x09] ++ le_bytes 1 5 ++ list_byte_of_string "alice" ++ [x07];
       pos := 1 |} ColumnTypeVarchar 45
  = Ret (VString (list_byte_of_string "alice"),
         {| data := [x09] ++ le_bytes 1 5 ++ list_byte_of_string "alice" ++ [x07];
            pos := 7 |}).
Proof.
  apply (decodeValue_varchar_roundtrip rawCodec [x09]
           (list_byte_of_string "alice") [x07] ColumnTypeVarchar 45).
  - by left.
  - vm_compute. reflexivity.
Defined.

(** X24: the integer columns round-trip: on a buffer that holds, at the
    cursor, a value in 1, 2, 3, 4 or 8 little-endian bytes, [decodeValue]
    for Tiny, Short, Int24, Long or Longlong returns that value, unsigned,
    and moves the cursor by the width of the type. *)
Theorem decodeValue_integer_roundtrip C pre rest ct meta (w : nat) v :
  intWidth ct = Some w →
  0 ≤ v < 256 ^ Z.of_nat w →
  let bytes := pre ++ le_bytes w v ++ rest in
  decodeValue C {| data := bytes; pos := length pre |} ct meta
  = Ret (VUint (8 * Z.of_nat w) v, {| data := bytes; pos := length pre + w |}).
Proof.
  intros Hw Hv bytes.
  assert (decodeValue C {| data := bytes; pos := length pre |} ct meta
          = readUintValue (Z.of_nat w) {| data := bytes; pos := length pre |}) as ->.
  { unfold intWidth in Hw.
    repeat match type of Hw with
           | (if ?c =? ?k then _ else _) = _ =>
             destruct (Z.eqb_spec c k) as [->|_]; [injection Hw as <-; reflexivity|]
           end.
    discriminate. }
  assert (length bytes = (length pre + w + length rest)%nat) as Hbytes.
  { unfold bytes. rewrite !length_app, length_le_bytes. lia. }
  unfold readUintValue. rewrite ReadUint_at by lia.
  cbn [mbind outcome_bind]. rewrite Nat2Z.id.
  assert (take w (drop (length pre) bytes) = le_bytes w v) as ->.
  { unfold bytes. rewrite drop_app_length.
    rewrite <- (length_le_bytes w v) at 1. by rewrite take_app_length. }
  by rewrite le_value_le_bytes, Z.mod_small by lia.
Qed.

Lemma decodeValue_integer_roundtrip_witness :
  decodeValue rawCodec
    {| data := [x09] ++ le_bytes 4 70000 ++ [x07]; pos := 1 |} ColumnTypeLong 0
  = Ret (VUint 32 70000,
         {| data := [x09] ++ le_bytes 4 70000 ++ [x07]; pos := 5 |}).
Proof.
  apply (decodeValue_integer_roundtrip rawCodec [x09] [x07] ColumnTypeLong 0
           4%nat 70000).
  - reflexivity.
  - vm_compute. split; [discriminate | reflexivity].
Defined.

(** ** The properties above on concrete runs *)

Lemma ReadEvent_event_format_witness :
  ∃ r' evt,
    ReadEvent specBinlog reader0 (Ok (packet 15 0 formatPayload))
      = Ret (r', Ok evt)
    ∧ Format evt = format r' ∧ Version (format r') = 4.
Proof.
  eexists _, _. split; [vm_compute; reflexivity|]. split; [|reflexivity].
  eapply (ReadEvent_event_format specBinlog reader0 (packet 15 0 formatPayload)).
  vm_compute. reflexivity.
Defined.

Lemma ReadEvent_table_iff_rows_witness :
  ∃ r' evt,
    ReadEvent specBinlog reader101 (Ok (packet 30 900 (rowsHead 5 1)))
      = Ret (r', Ok evt)
    ∧ (is_Some (Table evt) ↔ isRowsEvent (Type_ (Header evt)) = true).
Proof.
  eexists _, _. split; [vm_compute; reflexivity|].
  eapply (ReadEvent_table_iff_rows specBinlog reader101
            (packet 30 900 (rowsHead 5 1))).
  vm_compute. reflexivity.
Defined.

Lemma ReadEvent_error_frame_witness :
  ∃ r',
    ReadEvent specBinlog reader101 (Ok (packet 23 200 (rowsHead 777 1)))
      = Ret (r', Err ErrUnknownTableID)
    ∧ format r' = format reader101 ∧ tableMap r' = tableMap reader101.
Proof.
  eexists. split; [vm_compute; reflexivity|].
  edestruct (ReadEvent_error_frame specBinlog reader101
               (Ok (packet 23 200 (rowsHead 777 1)))) as (Hf & Hm & _).
  - vm_compute. reflexivity.
  - split; [exact Hf | exact Hm].
Defined.

Lemma ReadEvent_offset_witness :
  ∃ r' evt,
    ReadEvent specBinlog reader0 (Ok (packet 2 120 [x61; x62])) = Ret (r', Ok evt)
    ∧ Offset (State r') = 120 ∧ EventOffset evt = 4.
Proof.
  eexists _, _. split; [vm_compute; reflexivity|].
  edestruct (ReadEvent_offset specBinlog reader0 (packet 2 120 [x61; x62]))
    as (Hoff & _ & Hevt).
  - vm_compute. reflexivity.
  - vm_compute. discriminate.
  - split; [exact Hoff | exact Hevt].
Defined.

Lemma ReadEvent_keeps_entries_witness :
  ∃ r' res,
    ReadEvent specBinlog readerV4 (Ok (packet 19 0 (tableMapPayload 7 [x03] [])))
      = Ret (r', res)
    ∧ (size (tableMap r') ≤ S (size (tableMap readerV4)))%nat.
Proof.
  eexists _, _. split; [vm_compute; reflexivity|].
  eapply (ReadEvent_keeps_entries specBinlog readerV4
            (Ok (packet 19 0 (tableMapPayload 7 [x03] [])))).
  vm_compute. reflexivity.
Defined.

Lemma table_map_then_rows_witness :
  ∃ r2 e2,
    ReadEvent specBinlog
      (readerAfter readerV4 [Ok (packet 19 0 (tableMapPayload 7 [x03] []))])
      (Ok (packet 23 300 (rowsHead 7 0))) = Ret (r2, Ok e2)
    ∧ Header e2 = {| Timestamp := 0; Type_ := EventTypeWriteRowsV1;
                     ServerID := 1; EventLen := 27; NextOffset := 300;
                     Flags_ := 0 |}
    ∧ Table e2 = Some (tmeTableDescription longTableMapEvent).
Proof.
  eapply (table_map_then_rows specBinlog readerV4
            (packet 19 0 (tableMapPayload 7 [x03] [])) _ _ longTableMapEvent
            (packet 23 300 (rowsHead 7 0))).
  - vm_compute. reflexivity.
  - vm_compute. reflexivity.
  - vm_compute. reflexivity.
  - vm_compute. reflexivity.
  - vm_compute. reflexivity.
  - vm_compute. reflexivity.
  - vm_compute. reflexivity.
Defined.

Lemma flush_then_rows_rejected_witness :
  ∃ r2,
    ReadEvent specBinlog
      (readerAfter reader101 [Ok (packet 30 900 (rowsHead 5 1))])
      (Ok (packet 30 950 (rowsHead 5 1))) = Ret (r2, Err ErrUnknownTableID)
    ∧ tableMap r2 = ∅.
Proof.
  eapply (flush_then_rows_rejected specBinlog reader101
            (packet 30 900 (rowsHead 5 1)) _ _ 5 1
            (packet 30 950 (rowsHead 5 1))).
  - vm_compute. reflexivity.
  - vm_compute. reflexivity.
  - vm_compute. reflexivity.
  - vm_compute. reflexivity.
  - vm_compute. lia.
  - vm_compute. reflexivity.
  - vm_compute. reflexivity.
  - vm_compute. reflexivity.
  - vm_compute. reflexivity.
Defined.

Lemma DecodeRows_of_returned_event_witness :
  ∃ r' evt,
    ReadEvent specBinlog reader0 (Ok (packet 2 120 [x61; x62])) = Ret (r', Ok evt)
    ∧ DecodeRows specBinlog rawCodec 1 evt = Ret (Err ErrInvalidRowsEvent).
Proof.
  eexists _, _. split; [vm_compute; reflexivity|].
  edestruct (DecodeRows_of_returned_event specBinlog rawCodec 1 reader0
               (packet 2 120 [x61; x62])) as (_ & Hinv & _).
  - vm_compute. reflexivity.
  - apply Hinv. vm_compute. reflexivity.
Defined.

Lemma isBitSet_spec_witness :
  isBitSet [x05; x80] 15 = Ret true ∧ isBitSet [x05; x80] 16 = Panic.
Proof.
  split.
  - apply (proj1 (isBitSet_spec [x05; x80] 15)). cbn. lia.
  - apply (proj2 (isBitSet_spec [x05; x80] 16)). cbn. lia.
Defined.

Lemma countPresent_spec_witness :
  countPresent [x05; x80] 16 0 0 = Ret 3 ∧ popcount [x05; x80] 16 = 3.
Proof.
  split; [vm_compute; reflexivity|]. symmetry.
  apply (countPresent_spec [x05; x80] 16 3). vm_compute. reflexivity.
Defined.

Lemma decodeRows_absent_columns_nil_witness :
  ∃ row buf',
    decodeRows rawCodec 3
      (New ([x00] ++ le_bytes 4 1 ++ [x05] ++ list_byte_of_string "alice"))
      sampleTable [x05] = Ret (row, buf')
    ∧ row !! 1%nat = Some VNil.
Proof.
  eexists _, _. split; [vm_compute; reflexivity|].
  edestruct (decodeRows_absent_columns_nil rawCodec 3
               (New ([x00] ++ le_bytes 4 1 ++ [x05] ++ list_byte_of_string "alice"))
               sampleTable [x05]) as [_ Hnil].
  - vm_compute. reflexivity.
  - apply (Hnil 1); [lia | reflexivity].
Defined.

Lemma Decode_rows_shape_witness :
  ∃ e, Decode specBinlog rawCodec 1 EventTypeWriteRowsV1 sampleRows zeroFormat
         sampleTable = Ret (Ok e)
    ∧ Rows e ≠ [].
Proof.
  eexists. split; [vm_compute; reflexivity|].
  eapply (Decode_rows_shape specBinlog rawCodec 1 EventTypeWriteRowsV1
            sampleRows zeroFormat sampleTable).
  vm_compute. reflexivity.
Defined.

Lemma Decode_short_buffer_witness :
  Decode specBinlog rawCodec 1 EventTypeWriteRowsV1 [x05; x00; x00] zeroFormat
    sampleTable = Ret (Err ErrRecovered).
Proof. apply Decode_short_buffer. cbn. lia. Defined.

Lemma Decode_bitmaps_witness :
  ∃ e, Decode specBinlog rawCodec 1 EventTypeWriteRowsV1 sampleRows zeroFormat
         sampleTable = Ret (Ok e)
    ∧ Z.of_nat (length (ColumnBitmap1 e)) = (ColumnCount e + 7) / 8.
Proof.
  eexists. split; [vm_compute; reflexivity|].
  eapply (Decode_bitmaps specBinlog rawCodec 1 EventTypeWriteRowsV1
            sampleRows zeroFormat sampleTable).
  vm_compute. reflexivity.
Defined.

Lemma Decode_zero_columns_diverges_witness :
  Decode specBinlog rawCodec 1000 EventTypeWriteRowsV1 noColumnRows zeroFormat
    sampleTable = OutOfFuel.
Proof.
  apply (Decode_zero_columns_diverges specBinlog rawCodec 1000
           EventTypeWriteRowsV1 [x05; x00; x00; x00; x00; x00; x01; x00]
           [x00; x01] zeroFormat sampleTable).
  - reflexivity.
  - reflexivity.
  - reflexivity.
  - discriminate.
Defined.

Lemma stringMeta_bounds_witness :
  stringMeta ColumnTypeString 0xEE05 = (ColumnTypeString, 261)
  ∧ 0 ≤ (stringMeta ColumnTypeString 0xEE05).2 < 1024.
Proof.
  split; [reflexivity|]. apply (stringMeta_bounds 0xEE05). lia.
Defined.

Lemma ReadEvent_rotate_truncated_witness :
  ReadEvent specBinlog readerV4 (Ok (packet 4 0 [x04; x00; x00])) = Panic.
Proof.
  eapply (ReadEvent_rotate_truncated specBinlog readerV4
            (packet 4 0 [x04; x00; x00])).
  - vm_compute. reflexivity.
  - vm_compute. reflexivity.
  - vm_compute. reflexivity.
  - vm_compute. reflexivity.
  - vm_compute. lia.
Defined.

Lemma PeekTableIDAndFlags_spec_witness :
  PeekTableIDAndFlags specBinlog EventTypeWriteRowsV1 (rowsHead 5 1) zeroFormat
    = Ret (5, 1)
  ∧ PeekTableIDAndFlags specBinlog EventTypeWriteRowsV1 [x05; x00; x00; x00; x00;
      x00; x01] zeroFormat = Panic.
Proof.
  split.
  - apply (proj1 (PeekTableIDAndFlags_spec specBinlog EventTypeWriteRowsV1
                    (rowsHead 5 1) zeroFormat)). vm_compute. lia.
  - apply (proj2 (PeekTableIDAndFlags_spec specBinlog EventTypeWriteRowsV1
                    [x05; x00; x00; x00; x00; x00; x01] zeroFormat)).
    vm_compute. lia.
Defined.

Lemma ReadEvent_short_checksum_witness :
  ReadEvent specBinlog readerCRC (Ok (packet 2 120 [x61; x62])) = Panic.
Proof.
  eapply (ReadEvent_short_checksum specBinlog readerCRC (packet 2 120 [x61; x62])).
  - vm_compute. reflexivity.
  - reflexivity.
  - reflexivity.
  - vm_compute. split; discriminate.
  - vm_compute. reflexivity.
Defined.

Lemma Connect_hostname_witness :
  ∃ conn,
    Connect calmSession [] (config [x62] 4) = Ok conn
    ∧ ConfHostname (conf conn) = list_byte_of_string "localhost".
Proof.
  eexists. split; [vm_compute; reflexivity|].
  eapply (proj1 (Connect_hostname calmSession [] (config [x62] 4))).
  vm_compute. reflexivity.
Defined.

Lemma StartBinlogDump_offset_witness :
  ∃ conn,
    Connect calmSession [] (config [x62] 0) = Ok conn
    ∧ (StartBinlogDump conn).2 !! 1%nat = Some (WriteUint32 4).
Proof.
  eexists. split; [vm_compute; reflexivity|].
  edestruct (StartBinlogDump_offset calmSession [] (config [x62] 0))
    as (offset & Hw & -> & _).
  - vm_compute. reflexivity.
  - vm_compute. discriminate.
  - exact Hw.
Defined.

Lemma DisableChecksum_cases_witness :
  DisableChecksum silentServer
  = Ret (exec silentServer
           (SetVariable (list_byte_of_string "@master_binlog_checksum")
                        (list_byte_of_string "NONE")))
  ∧ DisableChecksum eofTextServer = Ret (Some (ErrExternal "EOF")).
Proof.
  split.
  - apply (proj1 (DisableChecksum_cases silentServer)). left. reflexivity.
  - apply (proj1 (proj2 (DisableChecksum_cases eofTextServer))
             (ErrExternal "EOF")).
    + discriminate.
    + left. reflexivity.
Defined.
